(** * prediction-aggregator: the trading core, embedded and verified

    A shallow embedding of the order-amount pipeline ([clob/order.go]), the
    price helpers ([common]), the hedge strategy's order loop, the order-book
    store and round scheduler of the market switcher, and the WebSocket
    connection's [Close] ([wss/client.go]), followed by the properties proved
    of them.

    Go's [float64] is the kernel's binary64 [float]; [int] and [big.Int] are
    [Z]; Go strings are [string]; Go maps are [gmap]. *)

From Stdlib Require Import ZArith QArith Qround Qabs Floats List String Ascii Bool Lia.
From stdpp Require Import gmap strings.
Import ListNotations.

Set Warnings "-inexact-float".

(** ** Go's [float64] conversions and [fmt]/[strconv]/[strings] helpers *)

Module GoRuntime.
Local Open Scope Z_scope.

(** A finite binary64 number as sign and magnitude [num / den]
    ([den] a power of two); [None] for NaN and the infinities. *)
Definition decompose (f : float) : option (bool * (Z * Z)) :=
  match Prim2SF f with
  | S754_zero s => Some (s, (0, 1))
  | S754_finite s m e =>
      match e with
      | Z0 => Some (s, (Zpos m, 1))
      | Zpos p => Some (s, (Zpos m * 2 ^ Zpos p, 1))
      | Zneg p => Some (s, (Zpos m, 2 ^ Zpos p))
      end
  | S754_infinity _ | S754_nan => None
  end.

(** The exact rational value of a finite [float64] (0 for NaN and
    infinities, which have none). *)
Definition exact (f : float) : Q :=
  match decompose f with
  | Some (s, (n, d)) =>
      let a := Qmake n (Z.to_pos d) in if s then Qopp a else a
  | None => 0%Q
  end.

(** [int(f)]: the conversion truncates toward zero.  Outside the range of
    [int64] (and for NaN) the Go specification leaves the result to the
    implementation; amd64 yields the smallest [int64]. *)
Definition float_to_int (f : float) : Z :=
  match decompose f with
  | Some (s, (n, d)) =>
      let a := n / d in
      if 2 ^ 63 <=? a then - 2 ^ 63 else if s then - a else a
  | None => - 2 ^ 63
  end.

(** [float64(n)]: the nearest binary64 number, ties to even. *)
Definition int_to_float (n : Z) : float :=
  SF2Prim (binary_normalize prec emax n 0 false).

(** Rounding of the non-negative fraction [n / d] to the nearest integer,
    ties to even: the rounding of [strconv.FormatFloat]. *)
Definition round_half_even (n d : Z) : Z :=
  let q := n / d in
  match 2 * (n mod d) ?= d with
  | Lt => q
  | Gt => q + 1
  | Eq => if Z.even q then q else q + 1
  end.

Definition digit (d : Z) : ascii := ascii_of_nat (48 + Z.to_nat d).

(** The [k] low decimal digits of [n], most significant first. *)
Fixpoint fixed_digits (k : nat) (n : Z) : string :=
  match k with
  | O => EmptyString
  | S k' => fixed_digits k' (n / 10) +:+ String (digit (n mod 10)) EmptyString
  end.

Fixpoint digits_from (fuel : nat) (n : Z) (acc : string) : string :=
  match fuel with
  | O => acc
  | S fuel' =>
      let acc' := String (digit (n mod 10)) acc in
      if n / 10 =? 0 then acc' else digits_from fuel' (n / 10) acc'
  end.

(** [strconv.FormatUint(n, 10)] for [0 <= n]. *)
Definition FormatUint (n : Z) : string :=
  digits_from (S (Z.to_nat (Z.log2 n))) n EmptyString.

(** [strconv.FormatInt(n, 10)], also the [String] method of [big.Int]. *)
Definition FormatInt (n : Z) : string :=
  if n <? 0 then String "-" (FormatUint (- n)) else FormatUint n.

(** [fmt.Sprintf("%.<p>f", f)]: the exact value of [f] rounded to [p]
    decimals (nearest, ties to even), printed with its sign. *)
Definition Sprintf_f (p : nat) (f : float) : string :=
  match decompose f with
  | Some (s, (n, d)) =>
      let scaled := round_half_even (n * 10 ^ Z.of_nat p) d in
      (if s then "-" else "") +:+
      FormatUint (scaled / 10 ^ Z.of_nat p) +:+
      match p with
      | O => EmptyString
      | _ => String "." (fixed_digits p scaled)
      end
  | None =>
      match Prim2SF f with
      | S754_infinity false => "+Inf"
      | S754_infinity true => "-Inf"
      | _ => "NaN"
      end
  end.

(** [strings.Split(s, sep)] for a one-byte separator. *)
Fixpoint Split (s : string) (sep : ascii) : list string :=
  match s with
  | EmptyString => [EmptyString]
  | String c s' =>
      if Ascii.eqb c sep then EmptyString :: Split s' sep
      else match Split s' sep with
           | [] => [String c EmptyString]
           | part :: parts => String c part :: parts
           end
  end.

(** [strings.TrimRight(s, cutset)] for a one-byte cutset. *)
Fixpoint TrimRight (s : string) (c : ascii) : string :=
  match s with
  | EmptyString => EmptyString
  | String a s' =>
      let t := TrimRight s' c in
      if Ascii.eqb a c && String.eqb t EmptyString then EmptyString
      else String a t
  end.

Definition digit_val (c : ascii) : option Z :=
  let n := Z.of_nat (nat_of_ascii c) in
  if (48 <=? n) && (n <=? 57) then Some (n - 48) else None.

Fixpoint parse_digits (acc : Z) (s : string) : option Z :=
  match s with
  | EmptyString => Some acc
  | String c s' =>
      match digit_val c with
      | Some d => parse_digits (10 * acc + d) s'
      | None => None
      end
  end.

(** [SetString(s, 10)] of [big.Int]: an optional sign, then at least one
    decimal digit, and nothing else. *)
Definition SetString (s : string) : option Z :=
  match s with
  | EmptyString => None
  | String "-" EmptyString | String "+" EmptyString => None
  | String "-" s' => Z.opp <$> parse_digits 0 s'
  | String "+" s' => parse_digits 0 s'
  | _ => parse_digits 0 s
  end.

(** A Go [(value, error)] return: the value, or the error's message. *)
Inductive result (A : Type) : Type :=
| Ok (a : A)
| Err (msg : string).
Arguments Ok {A} a.
Arguments Err {A} msg.

(** [strings.HasPrefix] and [strings.TrimPrefix]. *)
Definition HasPrefix (s pre : string) : bool := String.prefix pre s.

Definition TrimPrefix (s pre : string) : string :=
  if String.prefix pre s
  then substring (String.length pre) (String.length s - String.length pre) s
  else s.

(** [strings.ToUpper] on ASCII text. *)
Definition upper (c : ascii) : ascii :=
  let n := nat_of_ascii c in
  if (97 <=? n)%nat && (n <=? 122)%nat then ascii_of_nat (n - 32) else c.

Fixpoint ToUpper (s : string) : string :=
  match s with
  | EmptyString => EmptyString
  | String c s' => String (upper c) (ToUpper s')
  end.

(** [strings.Trim(s, cutset)] for a cutset of ASCII bytes: the bytes of the
    cutset are removed from the end, then from the start. *)
Fixpoint in_cutset (c : ascii) (cutset : string) : bool :=
  match cutset with
  | EmptyString => false
  | String a cutset' => Ascii.eqb c a || in_cutset c cutset'
  end.

Fixpoint TrimLeftSet (s cutset : string) : string :=
  match s with
  | EmptyString => EmptyString
  | String a s' => if in_cutset a cutset then TrimLeftSet s' cutset else s
  end.

Fixpoint TrimRightSet (s cutset : string) : string :=
  match s with
  | EmptyString => EmptyString
  | String a s' =>
      let t := TrimRightSet s' cutset in
      if in_cutset a cutset && String.eqb t EmptyString then EmptyString
      else String a t
  end.

Definition Trim (s cutset : string) : string :=
  TrimLeftSet (TrimRightSet s cutset) cutset.

(** The byte of the double quote. *)
Definition quote : ascii := ascii_of_nat 34.

(** The white space of [strings.TrimSpace] among the ASCII bytes. *)
Definition asciiSpace (c : ascii) : bool :=
  let n := nat_of_ascii c in
  ((9 <=? n) && (n <=? 13) || (n =? 32))%nat.

Section Space.

(** [strings.TrimFunc(s, unicode.IsSpace)] and
    [strings.TrimRightFunc(s, unicode.IsSpace)], which [TrimSpace] falls
    back to when it meets a byte outside ASCII; taken as given. *)
Variable TrimFuncSpace : string -> string.
Variable TrimRightFuncSpace : string -> string.

(** The scan from the end, on the reversed bytes: whether a byte outside
    ASCII was met, and what is left. *)
Fixpoint scanEnd (r : list ascii) : bool * list ascii :=
  match r with
  | [] => (false, [])
  | c :: r' =>
      if (128 <=? nat_of_ascii c)%nat then (true, r)
      else if asciiSpace c then scanEnd r'
      else (false, r)
  end.

Definition trimSpaceEnd (s : string) : string :=
  let '(fallback, r) := scanEnd (rev (list_ascii_of_string s)) in
  let t := string_of_list_ascii (rev r) in
  if fallback then TrimRightFuncSpace t else t.

(** [strings.TrimSpace]. *)
Fixpoint TrimSpace (s : string) : string :=
  match s with
  | EmptyString => EmptyString
  | String c s' =>
      if (128 <=? nat_of_ascii c)%nat then TrimFuncSpace s
      else if asciiSpace c then TrimSpace s'
      else trimSpaceEnd s
  end.

End Space.

End GoRuntime.

(** ** [pkg/exchange/polymarket/clob]: order amounts and order building *)

Module Clob.
Import GoRuntime.

(** [type Side string] and [type TickSize string], with their constants. *)
Definition SideBuy : string := "BUY".
Definition SideSell : string := "SELL".

Definition TickSize01 : string := "0.1".
Definition TickSize001 : string := "0.01".
Definition TickSize0001 : string := "0.001".
Definition TickSize00001 : string := "0.0001".

Record RoundConfig := { Price : nat; Size : nat; Amount : nat }.

Definition roundingConfigs : gmap string RoundConfig :=
  list_to_map
    [ (TickSize01,    {| Price := 1; Size := 2; Amount := 3 |});
      (TickSize001,   {| Price := 2; Size := 2; Amount := 4 |});
      (TickSize0001,  {| Price := 3; Size := 2; Amount := 5 |});
      (TickSize00001, {| Price := 4; Size := 2; Amount := 6 |}) ].

(** Indexing a Go map yields the zero value for a missing key. *)
Definition lookupConfig (tickSize : string) : RoundConfig :=
  default {| Price := 0; Size := 0; Amount := 0 |} (roundingConfigs !! tickSize).

Fixpoint pow10 (n : nat) : float :=
  match n with
  | O => 1%float
  | S k => (pow10 k * 10)%float
  end.

Definition roundNormal (value : float) (decimals : nat) : float :=
  let multiplier := pow10 decimals in
  (int_to_float (float_to_int (value * multiplier + 0.5)) / multiplier)%float.

Definition roundDown (value : float) (decimals : nat) : float :=
  let multiplier := pow10 decimals in
  (int_to_float (float_to_int (value * multiplier)) / multiplier)%float.

Definition roundUp (value : float) (decimals : nat) : float :=
  let multiplier := pow10 decimals in
  (int_to_float (float_to_int (value * multiplier) + 1) / multiplier)%float.

Definition decimalPlaces (value : float) : nat :=
  let str := Sprintf_f 10 value in
  match Split str "." with
  | _ :: dec :: _ => String.length (TrimRight dec "0")
  | _ => 0%nat
  end.

(** Pads [decPart] with zeros up to six bytes ([for len(decPart) < 6]). *)
Fixpoint pad6 (fuel : nat) (decPart : string) : string :=
  match fuel with
  | O => decPart
  | S fuel' =>
      if (String.length decPart <? 6)%nat then pad6 fuel' (decPart +:+ "0")
      else decPart
  end.

(** [toUnits]: the value printed with six decimals, the point removed, read
    back as an integer.  When [SetString] refuses the text (NaN, infinities)
    the fresh [big.Int] keeps its zero value. *)
Definition toUnits (value : float) : Z :=
  let valueStr := Sprintf_f 6 value in
  let parts := Split valueStr "." in
  let intPart := hd EmptyString parts in
  let decPart :=
    match parts with
    | _ :: p1 :: _ =>
        let decPart := pad6 6 p1 in
        if (6 <? String.length decPart)%nat then substring 0 6 decPart
        else decPart
    | _ => "000000"
    end in
  default 0%Z (SetString (intPart +:+ decPart)).

Definition calculateOrderAmounts
    (side : string) (size price : float) (tickSize : string) : Z * Z :=
  let config := lookupConfig tickSize in
  let config := if (Price config =? 0)%nat then lookupConfig TickSize001 else config in
  let rawPrice := roundNormal price (Price config) in
  if String.eqb side SideBuy then
    let rawTakerAmt := roundDown size (Size config) in
    let rawMakerAmt := (rawTakerAmt * rawPrice)%float in
    let rawMakerAmt :=
      if (Amount config <? decimalPlaces rawMakerAmt)%nat then
        let rawMakerAmt := roundUp rawMakerAmt (Amount config + 4) in
        if (Amount config <? decimalPlaces rawMakerAmt)%nat
        then roundDown rawMakerAmt (Amount config)
        else rawMakerAmt
      else rawMakerAmt in
    (toUnits rawMakerAmt, toUnits rawTakerAmt)
  else
    let rawMakerAmt := roundDown size (Size config) in
    let rawTakerAmt := (rawMakerAmt * rawPrice)%float in
    let rawTakerAmt :=
      if (Amount config <? decimalPlaces rawTakerAmt)%nat then
        let rawTakerAmt := roundUp rawTakerAmt (Amount config + 4) in
        if (Amount config <? decimalPlaces rawTakerAmt)%nat
        then roundDown rawTakerAmt (Amount config)
        else rawTakerAmt
      else rawTakerAmt in
    (toUnits rawMakerAmt, toUnits rawTakerAmt).

(** *** [BuildOrder] *)

Module UserOrder.
Record t := mk
  { TokenID : string; Price : float; Size : float; Side : string;
    FeeRateBps : Z; Nonce : Z; Expiration : Z; Taker : string }.
End UserOrder.

Module CreateOrderOptions.
Record t := mk { TickSize : string; NegRisk : bool }.
End CreateOrderOptions.

Module SignedOrder.
Record t := mk
  { Salt : string; Maker : string; Signer : string; Taker : string;
    TokenID : string; MakerAmount : string; TakerAmount : string;
    Side : Z; Expiration : string; Nonce : string; FeeRateBps : string;
    SignatureType : Z; Signature : string }.
End SignedOrder.

Definition ContractCTFExchange : string :=
  "0x4bFb41d5B3570DeFd03C39a9A4D8dE6Bd8B8982E".
Definition ContractNegRiskCTFExchange : string :=
  "0xC5d563A36AE78145C45a50134d48A1215220f80a".

(** [common.Address{}.Hex()] *)
Definition zeroAddressHex : string :=
  "0x0000000000000000000000000000000000000000".

Section Signing.

(** go-ethereum, taken as given: the key type, [crypto.HexToECDSA],
    [crypto.PubkeyToAddress] (as the address's [Hex]), [common.HexToAddress]
    (likewise), [crypto.Sign], [hex.EncodeToString], and the Keccak-256
    digest of [0x1901], the domain separator and the struct hash of an
    order ([buildOrderDomainSeparator], [buildOrderStructHash]). *)
Variable PrivateKey : Type.
Variable HexToECDSA : string -> result PrivateKey.
Variable PubkeyToAddress : PrivateKey -> string.
Variable HexToAddress : string -> string.
Variable Sign : list Z -> PrivateKey -> result (list Z).
Variable EncodeToString : list Z -> string.
Variable orderMessageHash : Z -> string -> SignedOrder.t -> list Z.

Record OrderBuilder := mkOrderBuilder
  { privateKey : PrivateKey; chainID : Z; signer : string; funder : string;
    signatureType : Z }.

Definition NewOrderBuilder
    (privateKey : PrivateKey) (chainID : Z) (signatureType : Z)
    (funder : string) : OrderBuilder :=
  let signer := PubkeyToAddress privateKey in
  let funderAddr := if String.eqb funder "" then signer else HexToAddress funder in
  {| privateKey := privateKey; chainID := chainID; signer := signer;
     funder := funderAddr; signatureType := signatureType |}.

(** The recovery byte [sig[64]] is raised to 27/28. *)
Definition normalizeV (sig : list Z) : list Z :=
  match sig !! 64%nat with
  | Some v => if (v <? 27)%Z then <[64%nat := ((v + 27) mod 256)%Z]> sig else sig
  | None => sig
  end.

Definition signOrder (b : OrderBuilder) (order : SignedOrder.t)
    (exchange : string) : result string :=
  let messageHash := orderMessageHash (chainID b) exchange order in
  match Sign messageHash (privateKey b) with
  | Err e => Err ("sign: " +:+ e)
  | Ok sig => Ok ("0x" +:+ EncodeToString (normalizeV sig))
  end.

(** [BuildOrder], with the two values it draws from outside made arguments:
    the random [salt] and the clock [now] (Unix seconds). *)
Definition BuildOrder (salt : string) (now : Z) (b : OrderBuilder)
    (order : UserOrder.t) (opts : CreateOrderOptions.t)
    : result SignedOrder.t :=
  let '(makerAmount, takerAmount) :=
    calculateOrderAmounts (UserOrder.Side order) (UserOrder.Size order)
      (UserOrder.Price order) (CreateOrderOptions.TickSize opts) in
  let expiration :=
    if (UserOrder.Expiration order =? 0)%Z then (now + 365 * 24 * 3600)%Z
    else UserOrder.Expiration order in
  let nonce := UserOrder.Nonce order in
  let taker :=
    if String.eqb (UserOrder.Taker order) "" then zeroAddressHex
    else UserOrder.Taker order in
  let sideInt := if String.eqb (UserOrder.Side order) SideSell then 1%Z else 0%Z in
  let exchange :=
    if CreateOrderOptions.NegRisk opts then ContractNegRiskCTFExchange
    else ContractCTFExchange in
  let signedOrder :=
    {| SignedOrder.Salt := salt;
       SignedOrder.Maker := funder b;
       SignedOrder.Signer := signer b;
       SignedOrder.Taker := taker;
       SignedOrder.TokenID := UserOrder.TokenID order;
       SignedOrder.MakerAmount := FormatInt makerAmount;
       SignedOrder.TakerAmount := FormatInt takerAmount;
       SignedOrder.Side := sideInt;
       SignedOrder.Expiration := FormatInt expiration;
       SignedOrder.Nonce := FormatInt nonce;
       SignedOrder.FeeRateBps := FormatInt (UserOrder.FeeRateBps order);
       SignedOrder.SignatureType := signatureType b;
       SignedOrder.Signature := "" |} in
  match signOrder b signedOrder exchange with
  | Err e => Err ("sign order: " +:+ e)
  | Ok signature =>
      Ok {| SignedOrder.Salt := SignedOrder.Salt signedOrder;
            SignedOrder.Maker := SignedOrder.Maker signedOrder;
            SignedOrder.Signer := SignedOrder.Signer signedOrder;
            SignedOrder.Taker := SignedOrder.Taker signedOrder;
            SignedOrder.TokenID := SignedOrder.TokenID signedOrder;
            SignedOrder.MakerAmount := SignedOrder.MakerAmount signedOrder;
            SignedOrder.TakerAmount := SignedOrder.TakerAmount signedOrder;
            SignedOrder.Side := SignedOrder.Side signedOrder;
            SignedOrder.Expiration := SignedOrder.Expiration signedOrder;
            SignedOrder.Nonce := SignedOrder.Nonce signedOrder;
            SignedOrder.FeeRateBps := SignedOrder.FeeRateBps signedOrder;
            SignedOrder.SignatureType := SignedOrder.SignatureType signedOrder;
            SignedOrder.Signature := signature |}
  end.

(** [NewClient], as far as the key and the order builder go: the only
    place of the package where a private key is parsed. *)
Record ClientConfig := mkClientConfig
  { cfgPrivateKey : string; cfgChainID : Z; cfgFunder : string;
    cfgSignatureType : Z }.

Record Client := mkClient
  { clientChainID : Z; address : string; clientFunder : string;
    orderBuilder : OrderBuilder }.

Definition ChainIDPolygon : Z := 137.

Definition NewClient (cfg : ClientConfig) : result Client :=
  let chain := if (cfgChainID cfg =? 0)%Z then ChainIDPolygon else cfgChainID cfg in
  match HexToECDSA (TrimPrefix (cfgPrivateKey cfg) "0x") with
  | Err e => Err ("parse private key: " +:+ e)
  | Ok privateKey =>
      let address := PubkeyToAddress privateKey in
      let funder := if String.eqb (cfgFunder cfg) "" then address else cfgFunder cfg in
      Ok {| clientChainID := chain; address := address; clientFunder := funder;
            orderBuilder :=
              NewOrderBuilder privateKey chain (cfgSignatureType cfg) funder |}
  end.

Definition CreateOrder (salt : string) (now : Z) (c : Client)
    (order : UserOrder.t) (opts : CreateOrderOptions.t)
    : result SignedOrder.t :=
  BuildOrder salt now (orderBuilder c) order opts.

End Signing.

(** [ValidateOrder]: [None] is Go's [nil] error. *)
Definition ValidateOrder (order : SignedOrder.t) : option string :=
  if String.eqb (SignedOrder.Salt order) "" then Some "salt is required"
  else if String.eqb (SignedOrder.Maker order) ""
          || negb (HasPrefix (SignedOrder.Maker order) "0x")
  then Some "invalid maker address"
  else if String.eqb (SignedOrder.Signer order) ""
          || negb (HasPrefix (SignedOrder.Signer order) "0x")
  then Some "invalid signer address"
  else if String.eqb (SignedOrder.TokenID order) "" then Some "tokenId is required"
  else if String.eqb (SignedOrder.MakerAmount order) ""
          || String.eqb (SignedOrder.MakerAmount order) "0"
  then Some "makerAmount must be positive"
  else if String.eqb (SignedOrder.TakerAmount order) ""
          || String.eqb (SignedOrder.TakerAmount order) "0"
  then Some "takerAmount must be positive"
  else if negb (SignedOrder.Side order =? 0)%Z && negb (SignedOrder.Side order =? 1)%Z
  then Some "side must be 0 (BUY) or 1 (SELL)"
  else if (SignedOrder.SignatureType order <? 0)%Z
          || (2 <? SignedOrder.SignatureType order)%Z
  then Some "signatureType must be 0, 1, or 2"
  else if String.eqb (SignedOrder.Signature order) ""
          || negb (HasPrefix (SignedOrder.Signature order) "0x")
  then Some "invalid signature"
  else None.

End Clob.

(** ** [pkg/exchange/polymarket/common]: price and amount alignment *)

Module Common.
Import GoRuntime.

Definition AlignPrice (price tickSize : float) (side : string) : float :=
  let tickSize := if (tickSize <=? 0)%float then 0.01%float else tickSize in
  let ticks := (price / tickSize)%float in
  if String.eqb (ToUpper side) "BUY"
  then (int_to_float (float_to_int ticks) * tickSize)%float
  else (int_to_float (float_to_int (ticks + 0.9999)) * tickSize)%float.

Definition AlignAmount (amount tickSize : float) : float :=
  let tickSize := if (tickSize <=? 0)%float then 0.01%float else tickSize in
  (int_to_float (float_to_int (amount / tickSize)) * tickSize)%float.

Definition ClampPrice (price tickSize : float) : float :=
  let min := tickSize in
  let max := (1.0 - tickSize)%float in
  if (price <? min)%float then min
  else if (max <? price)%float then max
  else price.

Local Open Scope Z_scope.

(** [strconv.ParseInt(s, 16, 64)]: an optional sign, then at least one
    hexadecimal digit and nothing else; [None] stands for its error, which
    is also what a value outside [int64] gives. *)
Definition hex_val (c : ascii) : option Z :=
  let n := Z.of_nat (nat_of_ascii c) in
  if (48 <=? n) && (n <=? 57) then Some (n - 48)
  else if (97 <=? n) && (n <=? 102) then Some (n - 87)
  else if (65 <=? n) && (n <=? 70) then Some (n - 55)
  else None.

Fixpoint parse_hex (acc : Z) (s : string) : option Z :=
  match s with
  | EmptyString => Some acc
  | String c s' =>
      match hex_val c with
      | Some d => parse_hex (16 * acc + d) s'
      | None => None
      end
  end.

Definition ParseInt16 (s : string) : option Z :=
  let unsigned (t : string) : option Z :=
    match t with
    | EmptyString => None
    | _ => parse_hex 0 t
    end in
  match s with
  | String "-" t =>
      match unsigned t with
      | Some v => if (v <=? 2 ^ 63) then Some (- v) else None
      | None => None
      end
  | String "+" t =>
      match unsigned t with
      | Some v => if (v <? 2 ^ 63) then Some v else None
      | None => None
      end
  | _ =>
      match unsigned s with
      | Some v => if (v <? 2 ^ 63) then Some v else None
      | None => None
      end
  end.

(** How [CalculateIndexSet] ends: it returns its [big.Int], or the run-time
    panics. *)
Inductive IndexSetOutcome :=
| IndexSet (indexSet : Z)
| IndexSetPanic (why : string).

(** The loop of [CalculateIndexSet].  A negative index turns, as [uint],
    into a shift count of 2^64 minus a few, and [Lsh] by that many bits
    asks for a slice longer than the run time allows. *)
Fixpoint indexSetLoop (questionIDs : list string) (seen : gset Z)
    (indexSet : Z) : IndexSetOutcome :=
  match questionIDs with
  | [] => IndexSet indexSet
  | id :: rest =>
      if (String.length id <? 2)%nat then indexSetLoop rest seen indexSet
      else
        let hexStr := substring (String.length id - 2) 2 id in
        match ParseInt16 hexStr with
        | None => indexSetLoop rest seen indexSet
        | Some index =>
            if decide (index ∈ seen) then indexSetLoop rest seen indexSet
            else if (index <? 0)%Z
                 then IndexSetPanic "makeslice: len out of range"
                 else
                   let bit := Z.shiftl 1 index in
                   indexSetLoop rest ({[index]} ∪ seen) (Z.lor indexSet bit)
        end
  end.

Definition CalculateIndexSet (questionIDs : list string) : IndexSetOutcome :=
  indexSetLoop questionIDs ∅ 0%Z.

End Common.

(** ** The hedge strategy: one run of [Strategy.Execute] for an account pair *)

Module Hedge.
Import GoRuntime.

Record Config := mkConfig
  { AccountsFile : string; MarketURLs : list string; MaxTradeAmount : float;
    MinSpreadTicks : Z; MaxRetries : Z; RetryDelaySec : Z }.

(** [GetRetryDelay], in seconds. *)
Definition GetRetryDelay (c : Config) : Z :=
  if (RetryDelaySec c <=? 0)%Z then 3%Z else RetryDelaySec c.

Record AccountPair := mkAccountPair
  { Index : Z; AddressA : string; PrivateKeyA : string; ProxyA : string;
    AddressB : string; PrivateKeyB : string; ProxyB : string }.

(** [Result]; its [Duration] is wall-clock time and is left out. *)
Module Result.
Record t := mk
  { Index : Z; Success : bool; FilledA : string; FilledB : string;
    Error : string }.
End Result.

Definition DefaultConfig : Config :=
  {| AccountsFile := "data/01_polymarket_hedge_accounts_example.csv";
     MarketURLs := [];
     MaxTradeAmount := 10;
     MinSpreadTicks := 2;
     MaxRetries := 10;
     RetryDelaySec := 3 |}.

Fixpoint roundTo_pow (decimals : nat) : float :=
  match decimals with
  | O => 1%float
  | S k => (roundTo_pow k * 10)%float
  end.

Definition roundTo (v : float) (decimals : nat) : float :=
  let p := roundTo_pow decimals in
  (int_to_float (float_to_int (v * p + 0.5)) / p)%float.

Definition minFloat (vals : list float) : float :=
  match vals with
  | [] => 0%float
  | v0 :: rest => fold_left (fun m v => if (v <? m)%float then v else m) rest v0
  end.

(** What the run sees of its collaborators' replies. *)
Module OrderSummary.
Record t := mk { Price : string; Size : string }.
End OrderSummary.

Module OrderBookSummary.
Record t := mk
  { Bids : list OrderSummary.t; Asks : list OrderSummary.t; TickSize : string }.
End OrderBookSummary.

Module Market.
Record t := mk { ClobTokenIds : string; Question : string }.
End Market.

Module AccountStatus.
Record t := mk { CTFApprovedExchange : bool; USDCAllowanceCTF : string }.
End AccountStatus.

Module OrderResponse.
Record t := mk { OrderID : string }.
End OrderResponse.

Module OpenOrder.
Record t := mk { SizeMatched : string }.
End OpenOrder.

(** The order a leg submits ([clob.UserOrder] with [Side: clob.SideBuy],
    [FeeRateBps: 0]) and its options. *)
Module LegOrder.
Record t := mk
  { TokenID : string; Price : float; Size : float; TickSize : string;
    NegRisk : bool }.
End LegOrder.

Inductive Leg := LegA | LegB.

(** The run's calls that change something outside it, in program order.
    The two submissions of an attempt run as two goroutines joined by
    [wg.Wait]; both always happen, and the trace lists A's first. *)
Inductive Event :=
| EvApprove (leg : Leg)
| EvSleep (seconds : Z)
| EvSubmit (leg : Leg) (order : LegOrder.t)
| EvCancel (leg : Leg) (orderID : string).

(** The collaborators of one run.  Replies that may change over the run
    are indexed by the attempt that asks. *)
Record Env := mkEnv
  { relayerNewClientA : result unit;
    relayerNewClientB : result unit;
    CreateOrDeriveApiKeyA : result unit;
    CreateOrDeriveApiKeyB : result unit;
    GetUSDCBalanceA : result float;
    GetUSDCBalanceB : result float;
    GetAccountStatusA : result AccountStatus.t;
    GetAccountStatusB : result AccountStatus.t;
    Shuffle : list string -> list string;
    GetMarketByURL : string -> result Market.t;
    GetOrderBook : Z -> string -> result OrderBookSummary.t;
    GetTickSize : Leg -> Z -> string -> result string;
    GetNegRisk : Leg -> Z -> string -> result bool;
    CreateAndPostOrder : Leg -> Z -> LegOrder.t -> result OrderResponse.t;
    GetOrder : Leg -> Z -> string -> result OpenOrder.t }.

(** How a call of [Execute] ends: it returns its [Result], or the Go
    runtime panics (a nil pointer is dereferenced, a slice bound is out of
    range). *)
Inductive Outcome :=
| Returned (r : Result.t)
| Panicked (why : string).

(** What one turn of the order loop does next. *)
Inductive Step :=
| Continue (bestBid bestAsk : float)
| Return (r : Result.t)
| Panic (why : string).

Section Run.

(** [strconv.ParseFloat(s, 64)] with its error dropped, and
    [common.ParseTokenIDs] (a JSON array of strings; [nil] on error). *)
Variable ParseFloat : string -> float.
Variable ParseTokenIDs : string -> list string.

Definition parseFloat (s : string) : float := ParseFloat s.

(** [sort.Slice] by [less], then element 0: an element no other is
    [less] than.  Written as the scan that keeps the first such element. *)
Definition firstBy (less : float -> float -> bool) (l : list OrderSummary.t)
    : option OrderSummary.t :=
  match l with
  | [] => None
  | x :: rest =>
      Some (fold_left
              (fun best y =>
                 if less (ParseFloat (OrderSummary.Price y))
                         (ParseFloat (OrderSummary.Price best))
                 then y else best)
              rest x)
  end.

Definition parseBestPrices (book : OrderBookSummary.t) : float * float :=
  let bestBid :=
    match firstBy (fun pi pj => (pj <? pi)%float) (OrderBookSummary.Bids book) with
    | Some b => ParseFloat (OrderSummary.Price b)
    | None => 0%float
    end in
  let bestAsk :=
    match firstBy (fun pi pj => (pi <? pj)%float) (OrderBookSummary.Asks book) with
    | Some a => ParseFloat (OrderSummary.Price a)
    | None => 1%float
    end in
  (bestBid, bestAsk).

Variable s_config : Config.
Variable env : Env.
Variable pair : AccountPair.

Definition failure (msg : string) : Result.t :=
  {| Result.Index := Index pair; Result.Success := false;
     Result.FilledA := ""; Result.FilledB := ""; Result.Error := msg |}.

(** The market chosen in step 5. *)
Record Selected := mkSelected
  { yesTokenID : string; noTokenID : string; tickSize : float;
    selBestBid : float; selBestAsk : float }.

Fixpoint selectMarket (urls : list string) : option Selected :=
  match urls with
  | [] => None
  | url :: urls' =>
      match GetMarketByURL env url with
      | Err _ => selectMarket urls'
      | Ok m =>
          match ParseTokenIDs (Market.ClobTokenIds m) with
          | yes :: no :: _ =>
              match GetOrderBook env 0 yes with
              | Err _ => selectMarket urls'
              | Ok book =>
                  let tick := ParseFloat (OrderBookSummary.TickSize book) in
                  let tick := if (tick <=? 0)%float then 0.01%float else tick in
                  let '(bestBid, bestAsk) := parseBestPrices book in
                  if (bestBid =? 0)%float || (bestAsk =? 1)%float
                  then selectMarket urls'
                  else
                    let spreadTicks := float_to_int ((bestAsk - bestBid) / tick) in
                    if (MinSpreadTicks s_config <=? spreadTicks)%Z
                    then Some {| yesTokenID := yes; noTokenID := no;
                                 tickSize := tick; selBestBid := bestBid;
                                 selBestAsk := bestAsk |}
                    else selectMarket urls'
              end
          | _ => selectMarket urls'
          end
      end
  end.

Definition okOr {A} (d : A) (r : result A) : A :=
  match r with Ok a => a | Err _ => d end.

Definition isErr {A} (r : result A) : bool :=
  match r with Ok _ => false | Err _ => true end.

(** The block [if attempt > 1 { ... }] that opens a turn of the order loop:
    the boolean is its [continue]; a book that was fetched has already
    overwritten [bestBid] and [bestAsk] by then. *)
Definition refreshBook (sel : Selected) (attempt : Z) (bestBid bestAsk : float)
    : bool * float * float :=
  if (1 <? attempt)%Z then
    match GetOrderBook env attempt (yesTokenID sel) with
    | Err _ => (true, bestBid, bestAsk)
    | Ok book =>
        let '(bestBid, bestAsk) := parseBestPrices book in
        let spreadTicks :=
          float_to_int ((bestAsk - bestBid) / tickSize sel) in
        ((spreadTicks <? MinSpreadTicks s_config)%Z, bestBid, bestAsk)
    end
  else (false, bestBid, bestAsk).

(** The two limit prices of a turn. *)
Definition yesBuyPrice (bestBid tickSize : float) : float :=
  Common.AlignPrice (bestBid + tickSize) tickSize "BUY".

Definition noBuyPrice (yesBuyPrice : float) : float :=
  roundTo (1.0 - yesBuyPrice) 4.

(** One turn of the loop of step 6 ([for attempt := 1; ...]). *)
Definition attemptBody (balanceA balanceB : float) (sel : Selected)
    (attempt : Z) (bestBid bestAsk : float) : Step * list Event :=
  let '(skip, bestBid, bestAsk) := refreshBook sel attempt bestBid bestAsk in
  let evs :=
    if (1 <? attempt)%Z then [EvSleep (GetRetryDelay s_config)] else [] in
  if skip then (Continue bestBid bestAsk, evs)
  else
      let yesBuyPrice := yesBuyPrice bestBid (tickSize sel) in
      let noBuyPrice := noBuyPrice yesBuyPrice in
      let maxAmount := MaxTradeAmount s_config in
      let maxFromA := (balanceA / yesBuyPrice)%float in
      let maxFromB := (balanceB / noBuyPrice)%float in
      let tradeAmount :=
        Common.AlignAmount (minFloat [maxAmount; maxFromA; maxFromB])
          (tickSize sel) in
      if (tradeAmount <? tickSize sel)%float then
        (Return (failure "余额不足"), evs)
      else
        let tickSizeA := okOr "" (GetTickSize env LegA attempt (yesTokenID sel)) in
        let negRiskA := okOr false (GetNegRisk env LegA attempt (yesTokenID sel)) in
        let tickSizeB := okOr "" (GetTickSize env LegB attempt (noTokenID sel)) in
        let negRiskB := okOr false (GetNegRisk env LegB attempt (noTokenID sel)) in
        let legA :=
          LegOrder.mk (yesTokenID sel) yesBuyPrice tradeAmount tickSizeA negRiskA in
        let legB :=
          LegOrder.mk (noTokenID sel) noBuyPrice tradeAmount tickSizeB negRiskB in
        let evs := evs ++ [EvSubmit LegA legA; EvSubmit LegB legB] in
        match CreateAndPostOrder env LegA attempt legA,
              CreateAndPostOrder env LegB attempt legB with
        | Ok orderA, Ok orderB =>
            if (String.length (OrderResponse.OrderID orderA) <? 16)%nat
               || (String.length (OrderResponse.OrderID orderB) <? 16)%nat
            then (Panic "slice bounds out of range", evs)
            else
              let evs := evs ++ [EvSleep 3] in
              match GetOrder env LegA attempt (OrderResponse.OrderID orderA),
                    GetOrder env LegB attempt (OrderResponse.OrderID orderB) with
              | Ok statusA, Ok statusB =>
                  let filledA := parseFloat (OpenOrder.SizeMatched statusA) in
                  let filledB := parseFloat (OpenOrder.SizeMatched statusB) in
                  if (0 <? filledA)%float || (0 <? filledB)%float then
                    (Return {| Result.Index := Index pair;
                               Result.Success := true;
                               Result.FilledA := OpenOrder.SizeMatched statusA;
                               Result.FilledB := OpenOrder.SizeMatched statusB;
                               Result.Error := "" |}, evs)
                  else
                    (Continue bestBid bestAsk,
                     evs ++ [EvCancel LegA (OrderResponse.OrderID orderA);
                             EvCancel LegB (OrderResponse.OrderID orderB)])
              | _, _ => (Panic "nil pointer dereference", evs)
              end
        | _, _ => (Continue bestBid bestAsk, evs)
        end.

(** The loop itself: [n] turns are left, the next one is numbered
    [attempt]. *)
Fixpoint orderLoop (balanceA balanceB : float) (sel : Selected)
    (n : nat) (attempt : Z) (bestBid bestAsk : float)
    : Outcome * list Event :=
  match n with
  | O =>
      (Returned
         (failure ("达到最大重试次数 " +:+ FormatInt (MaxRetries s_config)
                   +:+ "，未能成交")), [])
  | S n' =>
      match attemptBody balanceA balanceB sel attempt bestBid bestAsk with
      | (Continue bestBid' bestAsk', evs) =>
          let '(out, evs') :=
            orderLoop balanceA balanceB sel n' (attempt + 1) bestBid' bestAsk' in
          (out, evs ++ evs')
      | (Return r, evs) => (Returned r, evs)
      | (Panic why, evs) => (Panicked why, evs)
      end
  end.

Definition needsApproval (st : AccountStatus.t) : bool :=
  negb (AccountStatus.CTFApprovedExchange st)
  || String.eqb (AccountStatus.USDCAllowanceCTF st) "0".

Definition Execute : Outcome * list Event :=
  match relayerNewClientA env with
  | Err e => (Returned (failure ("创建RelayerA失败: " +:+ e)), [])
  | Ok _ =>
  match relayerNewClientB env with
  | Err e => (Returned (failure ("创建RelayerB失败: " +:+ e)), [])
  | Ok _ =>
  match CreateOrDeriveApiKeyA env with
  | Err e => (Returned (failure ("创建ApiKeyA失败: " +:+ e)), [])
  | Ok _ =>
  match CreateOrDeriveApiKeyB env with
  | Err e => (Returned (failure ("创建ApiKeyB失败: " +:+ e)), [])
  | Ok _ =>
      let balanceA := okOr 0%float (GetUSDCBalanceA env) in
      let balanceB := okOr 0%float (GetUSDCBalanceB env) in
      match GetAccountStatusA env, GetAccountStatusB env with
      | Ok statusA, Ok statusB =>
          let approvals :=
            (if needsApproval statusA then [EvApprove LegA] else [])
            ++ (if needsApproval statusB then [EvApprove LegB] else []) in
          match selectMarket (Shuffle env (MarketURLs s_config)) with
          | None => (Returned (failure "所有市场盘口条件都不满足"), approvals)
          | Some sel =>
              let '(out, evs) :=
                orderLoop balanceA balanceB sel
                  (Z.to_nat (MaxRetries s_config)) 1
                  (selBestBid sel) (selBestAsk sel) in
              (out, approvals ++ evs)
          end
      | Err _, _ => (Panicked "nil pointer dereference", [])
      | Ok statusA, Err _ =>
          (Panicked "nil pointer dereference",
           if needsApproval statusA then [EvApprove LegA] else [])
      end
  end end end end.

End Run.

End Hedge.

(** ** The market switcher: order-book store and round scheduler *)

Module Switcher.
Import GoRuntime.
Local Open Scope Z_scope.

Module OrderBookLevel.
Record t := mk { Price : string; Size : string }.
End OrderBookLevel.

Module OrderBookSnapshot.
Record t := mk
  { AssetID : string; Bids : list OrderBookLevel.t;
    Asks : list OrderBookLevel.t }.
End OrderBookSnapshot.

Module PriceChangeEvent.
Record t := mk
  { AssetID : string; Price : string; Size : string; Side : string }.
End PriceChangeEvent.

(** [OrderBook]; its mutex serialises the calls below and has no state of
    its own here. *)
Record OrderBook := mkOrderBook
  { AssetID : string; Side : string;
    Bids : gmap string string; Asks : gmap string string }.

Definition NewOrderBook (assetID side : string) : OrderBook :=
  {| AssetID := assetID; Side := side; Bids := ∅; Asks := ∅ |}.

(** The loop [for _, lvl := range levels] storing into a fresh map. *)
Definition loadLevels (levels : list OrderBookLevel.t) : gmap string string :=
  foldl
    (fun m lvl =>
       if negb (String.eqb (OrderBookLevel.Size lvl) "0")
       then <[OrderBookLevel.Price lvl := OrderBookLevel.Size lvl]> m
       else m)
    ∅ levels.

Definition ApplySnapshot (ob : OrderBook) (snapshot : OrderBookSnapshot.t)
    : OrderBook :=
  {| AssetID := AssetID ob; Side := Side ob;
     Bids := loadLevels (OrderBookSnapshot.Bids snapshot);
     Asks := loadLevels (OrderBookSnapshot.Asks snapshot) |}.

Definition ApplyPriceChange (ob : OrderBook) (event : PriceChangeEvent.t)
    : OrderBook :=
  if String.eqb (PriceChangeEvent.Side event) "BUY" then
    if String.eqb (PriceChangeEvent.Size event) "0" then
      {| AssetID := AssetID ob; Side := Side ob;
         Bids := delete (PriceChangeEvent.Price event) (Bids ob);
         Asks := Asks ob |}
    else
      {| AssetID := AssetID ob; Side := Side ob;
         Bids := <[PriceChangeEvent.Price event := PriceChangeEvent.Size event]> (Bids ob);
         Asks := Asks ob |}
  else
    if String.eqb (PriceChangeEvent.Size event) "0" then
      {| AssetID := AssetID ob; Side := Side ob;
         Bids := Bids ob;
         Asks := delete (PriceChangeEvent.Price event) (Asks ob) |}
    else
      {| AssetID := AssetID ob; Side := Side ob;
         Bids := Bids ob;
         Asks := <[PriceChangeEvent.Price event := PriceChangeEvent.Size event]> (Asks ob) |}.

(** *** Go's [time.Time] in UTC

    An instant is its Unix time; the calendar accessors and [time.Date]
    follow the proleptic Gregorian calendar, computed era by era (an era is
    400 years, 146097 days, starting on a 1 March). *)

Module GoTime.

Record t := mk { unix : Z; nsec : Z }.

(** Day of era to (year of era, month, day), years starting in March. *)
Definition civil_of_doe (doe : Z) : Z * Z * Z :=
  let yoe := (doe - doe / 1460 + doe / 36524 - doe / 146096) / 365 in
  let doy := doe - (365 * yoe + yoe / 4 - yoe / 100) in
  let mp := (5 * doy + 2) / 153 in
  let d := doy - (153 * mp + 2) / 5 + 1 in
  let m := if mp <? 10 then mp + 3 else mp - 9 in
  (yoe, m, d).

Definition doe_of_civil (yoe m d : Z) : Z :=
  let mp := if 2 <? m then m - 3 else m + 9 in
  let doy := (153 * mp + 2) / 5 + d - 1 in
  yoe * 365 + yoe / 4 - yoe / 100 + doy.

(** Days since 1970-01-01 to (year, month, day). *)
Definition civil_from_days (z : Z) : Z * Z * Z :=
  let z := z + 719468 in
  let era := z / 146097 in
  let '(yoe, m, d) := civil_of_doe (z - era * 146097) in
  let y := yoe + era * 400 in
  (if m <=? 2 then y + 1 else y, m, d).

Definition days_from_civil (y m d : Z) : Z :=
  let y := if m <=? 2 then y - 1 else y in
  let era := y / 400 in
  era * 146097 + doe_of_civil (y - era * 400) m d - 719468.

Definition Year (x : t) : Z := fst (fst (civil_from_days (unix x / 86400))).
Definition Month (x : t) : Z := snd (fst (civil_from_days (unix x / 86400))).
Definition Day (x : t) : Z := snd (civil_from_days (unix x / 86400)).
Definition Hour (x : t) : Z := (unix x mod 86400) / 3600.
Definition Minute (x : t) : Z := (unix x mod 3600) / 60.
Definition Second (x : t) : Z := unix x mod 60.

(** The [norm] of package [time]: [lo] is brought into [0, base), the
    excess carried into [hi]. *)
Definition norm (hi lo base : Z) : Z * Z := (hi + lo / base, lo mod base).

(** [time.Date(year, month, day, hour, min, sec, nsec, time.UTC)]: values
    outside their usual ranges are normalised. *)
Definition Date (year month day hour min sec nsec : Z) : t :=
  let '(year, m) := norm year (month - 1) 12 in
  let month := m + 1 in
  let '(sec, nsec) := norm sec nsec 1000000000 in
  let '(min, sec) := norm min sec 60 in
  let '(hour, min) := norm hour min 60 in
  let '(day, hour) := norm day hour 24 in
  {| unix := days_from_civil year month day * 86400
             + hour * 3600 + min * 60 + sec;
     nsec := nsec |}.

(** A [time.Duration] is a count of nanoseconds. *)
Definition Minute_ns : Z := 60 * 1000000000.
Definition Hour_ns : Z := 60 * Minute_ns.

(** [Duration.Seconds]: whole seconds plus the fraction, as a [float64]. *)
Definition Seconds (d : Z) : float :=
  (int_to_float (Z.quot d 1000000000)
   + int_to_float (Z.rem d 1000000000) / 1e9)%float.

End GoTime.

(** The package-level [period] is an argument here. *)
Definition getPeriodDuration (period : string) : Z :=
  if String.eqb period "15m" then 15 * GoTime.Minute_ns
  else if String.eqb period "1h" then GoTime.Hour_ns
  else if String.eqb period "4h" then 4 * GoTime.Hour_ns
  else if String.eqb period "daily" then 24 * GoTime.Hour_ns
  else 15 * GoTime.Minute_ns.

(** [calcCurrentRoundStart], with the clock reading [now]
    ([time.Now().UTC()]) an argument. *)
Definition calcCurrentRoundStart (period : string) (now : GoTime.t) : GoTime.t :=
  let duration := getPeriodDuration period in
  if String.eqb period "daily" then
    GoTime.Date (GoTime.Year now) (GoTime.Month now) (GoTime.Day now) 0 0 0 0
  else
    let periodSec := float_to_int (GoTime.Seconds duration) in
    let currentSec :=
      GoTime.Hour now * 3600 + GoTime.Minute now * 60 + GoTime.Second now in
    let alignedSec := Z.quot currentSec periodSec * periodSec in
    GoTime.Date (GoTime.Year now) (GoTime.Month now) (GoTime.Day now)
      0 0 alignedSec 0.

(** [parseTokenIDs]: the text of a JSON array of strings, taken apart by
    hand. *)
Definition parseTokenIDs (TrimFuncSpace TrimRightFuncSpace : string -> string)
    (s : string) : list string :=
  let s := Trim s "[]" in
  let parts := Split s "," in
  foldl
    (fun ids p =>
       let id :=
         Trim (TrimSpace TrimFuncSpace TrimRightFuncSpace p)
           (String quote EmptyString) in
       if negb (String.eqb id "") then ids ++ [id] else ids)
    [] parts.

End Switcher.

(** ** [pkg/exchange/polymarket/wss]: the connection's life cycle *)

Module Wss.
Import GoRuntime.

Record ClientConfig := mkClientConfig
  { BaseURL : string; PingInterval : Z; ReconnectDelay : Z;
    MaxReconnectAttempts : Z }.

(** The fields of [Connection] that [Connect] and [Close] read or write.
    [conn] is the socket ([None] is Go's [nil]), [pingTimer] and
    [reconnectTimer] say whether a ticker or timer is held, and
    [stopChClosed] whether the channel [stopCh] has been closed. *)
Record Connection := mkConnection
  { channel : string; config : ClientConfig; subscribePayload : string;
    conn : option Z; isConnected : bool; isIntentionalClose : bool;
    reconnectAttempts : Z; pingTimer : bool; reconnectTimer : bool;
    stopChClosed : bool }.

(** How a method call ends: it returns (with the connection as it left
    it), or the runtime panics (the writes made until then stay). *)
Inductive Outcome (A : Type) : Type :=
| Done (c : Connection) (a : A)
| Panicked (c : Connection) (why : string).
Arguments Done {A} c a.
Arguments Panicked {A} c why.

Definition NewConnection (channel : string) (config : ClientConfig)
    (payload : string) : Connection :=
  {| channel := channel; config := config; subscribePayload := payload;
     conn := None; isConnected := false; isIntentionalClose := false;
     reconnectAttempts := 0; pingTimer := false; reconnectTimer := false;
     stopChClosed := false |}.

Definition stopPing (c : Connection) : Connection :=
  if pingTimer c then
    {| channel := channel c; config := config c;
       subscribePayload := subscribePayload c; conn := conn c;
       isConnected := isConnected c;
       isIntentionalClose := isIntentionalClose c;
       reconnectAttempts := reconnectAttempts c; pingTimer := false;
       reconnectTimer := reconnectTimer c; stopChClosed := stopChClosed c |}
  else c.

Definition stopReconnect (c : Connection) : Connection :=
  if reconnectTimer c then
    {| channel := channel c; config := config c;
       subscribePayload := subscribePayload c; conn := conn c;
       isConnected := isConnected c;
       isIntentionalClose := isIntentionalClose c;
       reconnectAttempts := reconnectAttempts c; pingTimer := pingTimer c;
       reconnectTimer := false; stopChClosed := stopChClosed c |}
  else c.

(** [Close].  Its last statement is [close(c.stopCh)], and closing a
    closed channel is a run-time panic in Go. *)
Definition Close (c : Connection) : Outcome unit :=
  let c :=
    {| channel := channel c; config := config c;
       subscribePayload := subscribePayload c; conn := conn c;
       isConnected := isConnected c; isIntentionalClose := true;
       reconnectAttempts := reconnectAttempts c; pingTimer := pingTimer c;
       reconnectTimer := reconnectTimer c; stopChClosed := stopChClosed c |} in
  let c := stopPing c in
  let c := stopReconnect c in
  let c :=
    {| channel := channel c; config := config c;
       subscribePayload := subscribePayload c; conn := None;
       isConnected := false; isIntentionalClose := isIntentionalClose c;
       reconnectAttempts := reconnectAttempts c; pingTimer := pingTimer c;
       reconnectTimer := reconnectTimer c; stopChClosed := stopChClosed c |} in
  if stopChClosed c then Panicked c "close of closed channel"
  else
    Done
      {| channel := channel c; config := config c;
         subscribePayload := subscribePayload c; conn := conn c;
         isConnected := isConnected c;
         isIntentionalClose := isIntentionalClose c;
         reconnectAttempts := reconnectAttempts c; pingTimer := pingTimer c;
         reconnectTimer := reconnectTimer c; stopChClosed := true |} tt.


(** What the reconnect logic lets the outside see: the callbacks it calls
    (each one only when it is set) and the timer it arms with
    [time.AfterFunc]. *)
Inductive Notice :=
| OnDisconnected (code : Z) (reason : string)
| OnReconnectFail (attempts : Z)
| OnReconnecting (attempt delay : Z)
| ArmReconnect (delay : Z)
| OnError (msg : string).

(** Multiplication of two [time.Duration] values: [int64], wrapping. *)
Definition wrap64 (x : Z) : Z := ((x + 2 ^ 63) mod 2 ^ 64 - 2 ^ 63)%Z.

Definition tryReconnect (c : Connection) : Connection * list Notice :=
  if (MaxReconnectAttempts (config c) <=? reconnectAttempts c)%Z then
    (c, [OnReconnectFail (reconnectAttempts c)])
  else
    let attempt := (reconnectAttempts c + 1)%Z in
    let delay := wrap64 (ReconnectDelay (config c) * attempt) in
    ({| channel := channel c; config := config c;
        subscribePayload := subscribePayload c; conn := conn c;
        isConnected := isConnected c;
        isIntentionalClose := isIntentionalClose c;
        reconnectAttempts := attempt; pingTimer := pingTimer c;
        reconnectTimer := true; stopChClosed := stopChClosed c |},
     [OnReconnecting attempt delay; ArmReconnect delay]).

Definition handleClose (code : Z) (reason : string) (c : Connection)
    : Connection * list Notice :=
  let c :=
    {| channel := channel c; config := config c;
       subscribePayload := subscribePayload c; conn := conn c;
       isConnected := false; isIntentionalClose := isIntentionalClose c;
       reconnectAttempts := reconnectAttempts c; pingTimer := pingTimer c;
       reconnectTimer := reconnectTimer c; stopChClosed := stopChClosed c |} in
  let c := stopPing c in
  let intentional := isIntentionalClose c in
  if negb intentional && (0 <? MaxReconnectAttempts (config c))%Z then
    let '(c, notices) := tryReconnect c in
    (c, OnDisconnected code reason :: notices)
  else (c, [OnDisconnected code reason]).


End Wss.

(** ** Vocabulary of the properties *)

Module Props.
Import GoRuntime Clob Common Hedge Switcher.

(** A side map holds no entry of size "0". *)
Definition no_zero_size (m : gmap string string) : Prop :=
  forall p : string, m !! p <> Some "0".

Definition clean_book (ob : OrderBook) : Prop :=
  no_zero_size (Bids ob) /\ no_zero_size (Asks ob).

(** Whether a text holds a byte. *)
Fixpoint has_byte (c : ascii) (s : string) : bool :=
  match s with
  | EmptyString => false
  | String a s' => Ascii.eqb a c || has_byte c s'
  end.

(** The text of a JSON array of strings: each element in double quotes,
    preceded by the white space given with it, the elements separated by
    commas. *)
Definition jsonItem (item : string * string) : string :=
  fst item +:+ String quote (snd item +:+ String quote EmptyString).

Fixpoint jsonItems (items : list (string * string)) : string :=
  match items with
  | [] => EmptyString
  | [item] => jsonItem item
  | item :: rest => jsonItem item +:+ String "," (jsonItems rest)
  end.

Definition jsonArray (items : list (string * string)) : string :=
  String "[" (jsonItems items +:+ "]").

(** An element [parseTokenIDs] reads back: not empty, without a comma, not
    starting or ending with a double quote, and preceded by ASCII white
    space only. *)
Definition plain_item (item : string * string) : Prop :=
  snd item <> EmptyString
  /\ has_byte "," (snd item) = false
  /\ (forall t, snd item <> String quote t)
  /\ (forall t, snd item <> t +:+ String quote EmptyString)
  /\ (forall c, has_byte c (fst item) = true ->
                 asciiSpace c = true /\ (nat_of_ascii c < 128)%nat).

(** The side map an event with side [BUY] ([buy] true) or any other side
    writes to, and whether an event writes to that map at price [p]. *)
Definition levels (buy : bool) (ob : OrderBook) : gmap string string :=
  if buy then Bids ob else Asks ob.

Definition touches (buy : bool) (p : string) (ev : PriceChangeEvent.t) : bool :=
  Bool.eqb (String.eqb (PriceChangeEvent.Side ev) "BUY") buy
  && String.eqb (PriceChangeEvent.Price ev) p.

(** A snapshot level that is stored at price [p]. *)
Definition stores (p : string) (lvl : OrderBookLevel.t) : bool :=
  String.eqb (OrderBookLevel.Price lvl) p
  && negb (String.eqb (OrderBookLevel.Size lvl) "0").

(** The check run over every day of an era: the calendar fields are in
    range and lead back to the day. *)
Definition doe_ok (doe : Z) : bool :=
  let '(yoe, m, d) := GoTime.civil_of_doe doe in
  ((0 <=? yoe) && (yoe <? 400) && (1 <=? m) && (m <=? 12)
   && (1 <=? d) && (d <=? 31)
   && (GoTime.doe_of_civil yoe m d =? doe))%Z.

(** [f] holds of the [fuel] integers from [k] on. *)
Fixpoint all_from (f : Z -> bool) (fuel : nat) (k : Z) : bool :=
  match fuel with
  | O => true
  | S fuel' => f k && all_from f fuel' (k + 1)%Z
  end.

(** The two amounts of the order a call returned, when it returned one. *)
Definition amounts_of (r : result SignedOrder.t) : option (string * string) :=
  match r with
  | Ok o => Some (SignedOrder.MakerAmount o, SignedOrder.TakerAmount o)
  | Err _ => None
  end.

(** The orders a trace submitted and the orders it cancelled, in order. *)
Definition submitted (evs : list Event) : list (Leg * LegOrder.t) :=
  omap (fun e => match e with EvSubmit l o => Some (l, o) | _ => None end) evs.

Definition cancelled (evs : list Event) : list (Leg * string) :=
  omap (fun e => match e with EvCancel l id => Some (l, id) | _ => None end) evs.



(** [env] with the replies to order submissions replaced. *)
Definition withSubmit (env : Env)
    (f : Leg -> Z -> LegOrder.t -> result OrderResponse.t) : Env :=
  {| relayerNewClientA := relayerNewClientA env;
     relayerNewClientB := relayerNewClientB env;
     CreateOrDeriveApiKeyA := CreateOrDeriveApiKeyA env;
     CreateOrDeriveApiKeyB := CreateOrDeriveApiKeyB env;
     GetUSDCBalanceA := GetUSDCBalanceA env;
     GetUSDCBalanceB := GetUSDCBalanceB env;
     GetAccountStatusA := GetAccountStatusA env;
     GetAccountStatusB := GetAccountStatusB env;
     Shuffle := Shuffle env;
     GetMarketByURL := GetMarketByURL env;
     GetOrderBook := GetOrderBook env;
     GetTickSize := GetTickSize env;
     GetNegRisk := GetNegRisk env;
     CreateAndPostOrder := f;
     GetOrder := GetOrder env |}.


(** The replies to submissions under which some leg of every turn is
    refused. *)
Definition some_leg_fails
    (f : Leg -> Z -> LegOrder.t -> result OrderResponse.t) : Prop :=
  forall (attempt : Z) (a b : LegOrder.t),
    isErr (f LegA attempt a) || isErr (f LegB attempt b) = true.

(** The index a question id contributes to the index set: its last two
    bytes read as a hexadecimal number, when there are two and they are
    one. *)
Definition indexOf (id : string) : option Z :=
  if (String.length id <? 2)%nat then None
  else ParseInt16 (substring (String.length id - 2) 2 id).

(** Go's [x == x]: the number is not a NaN. *)
Definition is_number (x : float) : bool := (x =? x)%float.

(** A result is either a success without an error text, or a failure with
    an error text and no fill texts; it carries the pair's index. *)
Definition well_formed (pair : AccountPair) (r : Result.t) : Prop :=
  Result.Index r = Index pair
  /\ ((Result.Success r = true /\ Result.Error r = "")
      \/ (Result.Success r = false /\ Result.FilledA r = ""
          /\ Result.FilledB r = "" /\ Result.Error r <> "")).

(** A sample run: one market with best bid 0.45, best ask 0.55 and tick
    0.01, both accounts funded and approved; the replies to the two
    submissions and the matched sizes the two legs report are arguments. *)
Definition sampleParseFloat (s : string) : float :=
  if String.eqb s "0.45" then 0.45%float
  else if String.eqb s "0.55" then 0.55%float
  else if String.eqb s "0.01" then 0.01%float
  else if String.eqb s "5" then 5%float
  else 0%float.

Definition sampleBook : OrderBookSummary.t :=
  OrderBookSummary.mk [OrderSummary.mk "0.45" "100"]
    [OrderSummary.mk "0.55" "100"] "0.01".

Definition sampleEnv (submitA submitB : result OrderResponse.t)
    (matchedA matchedB : string) : Env :=
  {| relayerNewClientA := Ok tt;
     relayerNewClientB := Ok tt;
     CreateOrDeriveApiKeyA := Ok tt;
     CreateOrDeriveApiKeyB := Ok tt;
     GetUSDCBalanceA := Ok 100%float;
     GetUSDCBalanceB := Ok 100%float;
     GetAccountStatusA := Ok (AccountStatus.mk true "1");
     GetAccountStatusB := Ok (AccountStatus.mk true "1");
     Shuffle := fun urls => urls;
     GetMarketByURL := fun _ => Ok (Market.mk "[1,2]" "Q");
     GetOrderBook := fun _ _ => Ok sampleBook;
     GetTickSize := fun _ _ _ => Ok "0.01";
     GetNegRisk := fun _ _ _ => Ok false;
     CreateAndPostOrder :=
       fun leg _ _ => match leg with LegA => submitA | LegB => submitB end;
     GetOrder :=
       fun leg _ _ =>
         Ok (OpenOrder.mk match leg with LegA => matchedA | LegB => matchedB end) |}.

Definition sampleConfig (retries : Z) : Config :=
  {| AccountsFile := ""; MarketURLs := ["https://polymarket.com/event/e/m"];
     MaxTradeAmount := 10; MinSpreadTicks := 2; MaxRetries := retries;
     RetryDelaySec := 3 |}.

Definition samplePair : AccountPair :=
  {| Index := 1; AddressA := "0xA"; PrivateKeyA := "a"; ProxyA := "";
     AddressB := "0xB"; PrivateKeyB := "b"; ProxyB := "" |}.


Definition sampleParseTokenIDs (_ : string) : list string := ["1"; "2"].

Definition sampleOrderA : OrderResponse.t :=
  OrderResponse.mk "0xaaaaaaaaaaaaaaaaaaaa".
Definition sampleOrderB : OrderResponse.t :=
  OrderResponse.mk "0xbbbbbbbbbbbbbbbbbbbb".

End Props.
Import Props.
(** ** Facts about the runtime model *)

Module RuntimeFacts.
Import GoRuntime.
Local Open Scope Z_scope.

Lemma decompose_nonneg (f : float) (s : bool) (n d : Z) :
  decompose f = Some (s, (n, d)) -> 0 <= n /\ 0 < d.
Proof.
  unfold decompose. destruct (Prim2SF f) as [s0|s0| |s0 m e]; try discriminate.
  - intros [= <- <- <-]. lia.
  - assert (P : forall p, 0 < 2 ^ Z.pos p) by (intros; apply Z.pow_pos_nonneg; lia).
    destruct e as [|p|p]; intros [= <- <- <-]; specialize (P p) || clear P;
      split; nia.
Qed.

Lemma round_half_even_near (n d : Z) :
  0 <= n -> 0 < d ->
  0 <= round_half_even n d /\ 2 * Z.abs (round_half_even n d * d - n) <= d.
Proof.
  intros Hn Hd. unfold round_half_even.
  pose proof (Z.div_mod n d ltac:(lia)) as E.
  pose proof (Z.mod_pos_bound n d Hd) as B.
  assert (0 <= n / d) by (apply Z.div_pos; lia).
  destruct (Z.compare_spec (2 * (n mod d)) d) as [C|C|C];
    [destruct (Z.even (n / d))| |]; split; nia.
Qed.

Lemma digit_cases (d : Z) :
  0 <= d < 10 ->
  d = 0 \/ d = 1 \/ d = 2 \/ d = 3 \/ d = 4 \/ d = 5 \/ d = 6 \/ d = 7
  \/ d = 8 \/ d = 9.
Proof. lia. Qed.

Lemma digit_val_digit (d : Z) : 0 <= d < 10 -> digit_val (digit d) = Some d.
Proof.
  intros H. destruct (digit_cases d H) as [->|[->|[->|[->|[->|[->|[->|[->|[->| ->]]]]]]]]];
    reflexivity.
Qed.

Lemma digit_not_dot (d : Z) : 0 <= d < 10 -> Ascii.eqb (digit d) "." = false.
Proof.
  intros H. destruct (digit_cases d H) as [->|[->|[->|[->|[->|[->|[->|[->|[->| ->]]]]]]]]];
    reflexivity.
Qed.

Lemma app_cons (x : ascii) (a b : string) :
  String x a +:+ b = String x (a +:+ b).
Proof. reflexivity. Qed.

Lemma app_nil (b : string) : "" +:+ b = b.
Proof. reflexivity. Qed.

Lemma app_assoc_s (a b c : string) : (a +:+ b) +:+ c = a +:+ (b +:+ c).
Proof.
  induction a as [|x a IH]; [reflexivity|]. rewrite !app_cons. now rewrite IH.
Qed.

Lemma app_empty_r (a : string) : a +:+ "" = a.
Proof.
  induction a as [|x a IH]; [reflexivity|]. rewrite app_cons. now rewrite IH.
Qed.

Lemma length_app_s (a b : string) :
  String.length (a +:+ b) = (String.length a + String.length b)%nat.
Proof.
  induction a as [|x a IH]; [reflexivity|]. rewrite app_cons. simpl.
  now rewrite IH.
Qed.

Lemma length_fixed_digits (k : nat) (n : Z) :
  String.length (fixed_digits k n) = k.
Proof.
  revert n. induction k as [|k IH]; intros n; simpl; [reflexivity|].
  rewrite length_app_s, IH. simpl. lia.
Qed.

Lemma parse_digits_app (s1 s2 : string) (acc : Z) :
  parse_digits acc (s1 +:+ s2)
  = match parse_digits acc s1 with
    | Some a => parse_digits a s2
    | None => None
    end.
Proof.
  revert acc. induction s1 as [|c s1 IH]; intros acc; [reflexivity|].
  rewrite app_cons. cbn [parse_digits].
  destruct (digit_val c); [apply IH | reflexivity].
Qed.

Lemma mod10_bound (n : Z) : 0 <= n mod 10 < 10.
Proof. apply Z.mod_pos_bound. lia. Qed.

Lemma parse_fixed_digits (k : nat) (n acc : Z) :
  0 <= n ->
  parse_digits acc (fixed_digits k n)
  = Some (acc * 10 ^ Z.of_nat k + n mod 10 ^ Z.of_nat k).
Proof.
  revert n acc. induction k as [|k IH]; intros n acc Hn.
  - simpl. rewrite Z.mod_1_r. f_equal. lia.
  - cbn [fixed_digits]. rewrite parse_digits_app, IH by (apply Z.div_pos; lia).
    cbn [parse_digits]. rewrite digit_val_digit by apply mod10_bound.
    f_equal. rewrite Nat2Z.inj_succ, Z.pow_succ_r by lia.
    assert (P : 0 < 10 ^ Z.of_nat k) by (apply Z.pow_pos_nonneg; lia).
    rewrite (Z.rem_mul_r n 10 (10 ^ Z.of_nat k)) by lia.
    lia.
Qed.

Lemma Split_app_single (s1 s2 : string) (sep : ascii) :
  Split s1 sep = [s1] ->
  Split (s1 +:+ s2) sep
  = match Split s2 sep with
    | [] => [s1]
    | p :: ps => (s1 +:+ p) :: ps
    end.
Proof.
  revert s2. induction s1 as [|c s1 IH]; intros s2 H.
  - rewrite app_nil. destruct s2 as [|c2 s2]; simpl; [reflexivity|].
    destruct (Ascii.eqb c2 sep); [reflexivity|].
    destruct (Split s2 sep); reflexivity.
  - rewrite app_cons. cbn [Split] in H |- *.
    destruct (Ascii.eqb c sep); [discriminate|].
    destruct (Split s1 sep) as [|p ps] eqn:E.
    + exfalso. destruct s1; simpl in E; [discriminate|].
      destruct (Ascii.eqb a sep); [discriminate|].
      destruct (Split s1 sep); discriminate.
    + injection H as -> ->. rewrite (IH s2 eq_refl).
      destruct (Split s2 sep); reflexivity.
Qed.

Lemma Split_fixed_digits (k : nat) (n : Z) :
  Split (fixed_digits k n) "." = [fixed_digits k n].
Proof.
  revert n. induction k as [|k IH]; intros n; [reflexivity|].
  cbn [fixed_digits]. rewrite Split_app_single by apply IH.
  cbn [Split]. rewrite digit_not_dot by apply mod10_bound. reflexivity.
Qed.

(** With enough fuel the digits produced are those of [fixed_digits] for
    some width that holds the whole number. *)
Lemma digits_from_fixed (fuel : nat) (n : Z) (acc : string) :
  0 <= n < 2 ^ Z.of_nat fuel ->
  exists k : nat,
    digits_from fuel n acc = fixed_digits k n +:+ acc /\ n < 10 ^ Z.of_nat k.
Proof.
  revert n acc. induction fuel as [|fuel IH]; intros n acc H.
  - exists 0%nat. simpl in *. split; [reflexivity | lia].
  - cbn [digits_from]. destruct (Z.eqb_spec (n / 10) 0) as [E|E].
    + exists 1%nat. split; [reflexivity|].
      pose proof (Z.div_mod n 10 ltac:(lia)). pose proof (mod10_bound n).
      change (10 ^ Z.of_nat 1) with 10. lia.
    + rewrite Nat2Z.inj_succ, Z.pow_succ_r in H by lia.
      destruct (IH (n / 10) (String (digit (n mod 10)) acc)) as (k & Hk & Hb).
      { split; [apply Z.div_pos; lia|].
        apply Z.div_lt_upper_bound; lia. }
      exists (S k). split.
      * rewrite Hk. cbn [fixed_digits]. rewrite app_assoc_s. reflexivity.
      * rewrite Nat2Z.inj_succ, Z.pow_succ_r by lia.
        pose proof (Z.div_mod n 10 ltac:(lia)). pose proof (mod10_bound n). lia.
Qed.

Lemma FormatUint_fixed (n : Z) :
  0 <= n ->
  exists k : nat, FormatUint n = fixed_digits k n /\ n < 10 ^ Z.of_nat k.
Proof.
  intros Hn. unfold FormatUint.
  destruct (digits_from_fixed (S (Z.to_nat (Z.log2 n))) n "") as (k & Hk & Hb).
  - split; [lia|]. rewrite Nat2Z.inj_succ, Z2Nat.id by apply Z.log2_nonneg.
    destruct (Z.eq_dec n 0) as [->|Hz]; [reflexivity|].
    apply Z.log2_spec. lia.
  - exists k. rewrite Hk, app_empty_r. split; [reflexivity | exact Hb].
Qed.

Lemma SetString_digits (s : string) (z : Z) :
  s <> "" -> parse_digits 0 s = Some z -> SetString s = Some z.
Proof.
  destruct s as [|c s]; [congruence|]. intros _ H.
  cbn [parse_digits] in H. destruct (digit_val c) as [d|] eqn:E; [|discriminate].
  assert (Hm : c <> "-"%char) by (intros ->; discriminate E).
  assert (Hp : c <> "+"%char) by (intros ->; discriminate E).
  assert (G : SetString (String c s) = parse_digits 0 (String c s)).
  { unfold SetString.
    destruct c as [[] [] [] [] [] [] [] []]; try reflexivity; congruence. }
  rewrite G. cbn [parse_digits]. rewrite E. exact H.
Qed.

Lemma all_from_spec (f : Z -> bool) (fuel : nat) :
  forall k, all_from f fuel k = true ->
  forall j, k <= j < k + Z.of_nat fuel -> f j = true.
Proof.
  induction fuel as [|fuel IH]; intros k H j Hj; [lia|].
  cbn [all_from] in H. apply andb_prop in H as [Hk Hrest].
  destruct (Z.eq_dec j k) as [->|Hne]; [exact Hk|].
  apply (IH (k + 1)); [exact Hrest | lia].
Qed.

End RuntimeFacts.
(** ** Order amounts *)

Module ClobFacts.
Import GoRuntime Clob RuntimeFacts.
Local Open Scope Z_scope.

Lemma pad6_full (s : string) : String.length s = 6%nat -> pad6 6 s = s.
Proof. intros H. cbn [pad6]. rewrite H. reflexivity. Qed.

(** The text [toUnits] reads back is the value rounded at the sixth
    decimal, whatever the digits are. *)
Lemma toUnits_of_scaled (q r : Z) :
  0 <= q -> 0 <= r ->
  default 0
    (SetString
       (hd "" [FormatUint q +:+ ""; fixed_digits 6 r] +:+ fixed_digits 6 r))
  = q * 1000000 + r mod 1000000.
Proof.
  intros Hq Hr. cbn [hd]. rewrite app_empty_r.
  destruct (FormatUint_fixed q Hq) as (k & -> & Hk).
  rewrite (SetString_digits _ (q * 1000000 + r mod 1000000)); [reflexivity| |].
  - intros E. apply (f_equal String.length) in E.
    rewrite length_app_s, !length_fixed_digits in E. simpl in E. lia.
  - rewrite parse_digits_app, parse_fixed_digits by exact Hq.
    rewrite parse_fixed_digits by exact Hr.
    change (10 ^ Z.of_nat 6) with 1000000.
    rewrite (Z.mod_small q) by lia. reflexivity.
Qed.

Lemma toUnits_finite (v : float) (n d : Z) :
  decompose v = Some (false, (n, d)) ->
  toUnits v = round_half_even (n * 1000000) d.
Proof.
  intros H. destruct (decompose_nonneg v false n d H) as [Hn Hd].
  destruct (round_half_even_near (n * 1000000) d ltac:(lia) Hd) as [Hr _].
  unfold toUnits, Sprintf_f. rewrite H.
  change (10 ^ Z.of_nat 6) with 1000000.
  set (r := round_half_even (n * 1000000) d) in *.
  assert (Hq : 0 <= r / 1000000) by (apply Z.div_pos; lia).
  rewrite app_nil.
  destruct (FormatUint_fixed (r / 1000000) Hq) as (k & Ek & _).
  assert (ES : Split (FormatUint (r / 1000000) +:+ String "." (fixed_digits 6 r)) "."
               = [FormatUint (r / 1000000) +:+ ""; fixed_digits 6 r]).
  { rewrite Split_app_single by (rewrite Ek; apply Split_fixed_digits).
    cbn [Split]. change (Ascii.eqb "." ".") with true. cbv iota.
    rewrite Split_fixed_digits. reflexivity. }
  rewrite ES. cbv iota.
  rewrite pad6_full by apply length_fixed_digits.
  rewrite length_fixed_digits. change (6 <? 6)%nat with false. cbv iota.
  rewrite toUnits_of_scaled by assumption.
  pose proof (Z.div_mod r 1000000 ltac:(lia)). lia.
Qed.




(** Every class of the rounding table has a non-zero price width, so the
    fall-back to the class of tick 0.01 never applies to a listed class. *)
Lemma roundingConfigs_listed (tick : string) (cfg : RoundConfig) :
  roundingConfigs !! tick = Some cfg ->
  lookupConfig tick = cfg /\ (Price cfg =? 0)%nat = false.
Proof.
  intros H. unfold lookupConfig. rewrite H. split; [reflexivity|].
  unfold roundingConfigs in H. cbn [list_to_map foldr fst snd uncurry] in H.
  repeat match type of H with
  | <[?k := _]> _ !! tick = _ =>
      destruct (decide (tick = k)) as [->|Hne];
      [rewrite lookup_insert_eq in H; injection H as <-; reflexivity
      |rewrite lookup_insert_ne in H by congruence; clear Hne]
  end.
  rewrite lookup_empty in H. discriminate.
Qed.

(** C1. For a BUY in a listed tick-size class the taker amount is the size
    cut to the class's size width, and the maker amount comes from the raw
    product in this order: kept as it is when it prints with no more
    decimals than the class's amount width; otherwise rounded up at four
    decimals more than that width, and only when the rounded-up value still
    prints with too many decimals is that value rounded down at the amount
    width. *)
Theorem buy_amounts_round_up_then_down
    (size price : float) (tick : string) (cfg : RoundConfig) :
  roundingConfigs !! tick = Some cfg ->
  let raw := (roundDown size (Size cfg) * roundNormal price (Price cfg))%float in
  let up := roundUp raw (Amount cfg + 4) in
  let maker := fst (calculateOrderAmounts SideBuy size price tick) in
  let taker := snd (calculateOrderAmounts SideBuy size price tick) in
  taker = toUnits (roundDown size (Size cfg))
  /\ ((decimalPlaces raw <= Amount cfg)%nat -> maker = toUnits raw)
  /\ ((Amount cfg < decimalPlaces raw)%nat ->
      (decimalPlaces up <= Amount cfg)%nat -> maker = toUnits up)
  /\ ((Amount cfg < decimalPlaces raw)%nat ->
      (Amount cfg < decimalPlaces up)%nat ->
      maker = toUnits (roundDown up (Amount cfg))).
Proof.
  intros H raw up maker taker.
  destruct (roundingConfigs_listed tick cfg H) as [Hc Hp].
  subst maker taker. unfold calculateOrderAmounts.
  rewrite Hc, Hp. change (String.eqb SideBuy SideBuy) with true. cbv iota.
  cbn [fst snd]. fold raw. fold up.
  split; [reflexivity|].
  split; [|split].
  - intros Hle. apply Nat.ltb_ge in Hle. rewrite Hle. reflexivity.
  - intros Hlt Hle. apply Nat.ltb_lt in Hlt. apply Nat.ltb_ge in Hle.
    rewrite Hlt, Hle. reflexivity.
  - intros Hlt Hlt2. apply Nat.ltb_lt in Hlt. apply Nat.ltb_lt in Hlt2.
    rewrite Hlt, Hlt2. reflexivity.
Qed.

(** A BUY of 2000000.33 at 0.57 with tick 0.01: the raw product prints with
    ten decimals, so does its round-up at eight, and the round-down at four
    is what is converted.  A BUY of 3000000.07 at 0.29: the round-up at
    eight prints with four decimals and is converted as it is. *)
Lemma buy_amounts_round_up_then_down_example :
  roundingConfigs !! "0.01" = Some {| Price := 2; Size := 2; Amount := 4 |}
  /\ fst (calculateOrderAmounts SideBuy 2000000.33 0.57 "0.01")
     = toUnits (roundDown
                  (roundUp (roundDown 2000000.33 2 * roundNormal 0.57 2) 8) 4)
  /\ calculateOrderAmounts SideBuy 2000000.33 0.57 "0.01"
     = (1140000188100, 2000000330000)
  /\ fst (calculateOrderAmounts SideBuy 3000000.07 0.29 "0.01")
     = toUnits (roundUp (roundDown 3000000.07 2 * roundNormal 0.29 2) 8)
  /\ calculateOrderAmounts SideBuy 3000000.07 0.29 "0.01"
     = (870000020300, 3000000070000).
Proof.
  assert (H : roundingConfigs !! "0.01"
              = Some {| Price := 2; Size := 2; Amount := 4 |})
    by (vm_compute; reflexivity).
  split; [exact H|]. split; [|split; [|split]].
  - destruct (buy_amounts_round_up_then_down 2000000.33 0.57 "0.01" _ H)
      as (_ & _ & _ & Hdown).
    apply Hdown; apply Nat.ltb_lt; vm_compute; reflexivity.
  - vm_compute. reflexivity.
  - destruct (buy_amounts_round_up_then_down 3000000.07 0.29 "0.01" _ H)
      as (_ & _ & Hup & _).
    apply Hup; [apply Nat.ltb_lt | apply Nat.leb_le]; vm_compute; reflexivity.
  - vm_compute. reflexivity.
Defined.

(** The BUY of 10.126 at 0.4567 with tick 0.01: the raw product is the
    binary64 number 4.6551999999999998, which prints with four decimals, not
    more than the amount width 4; no rounding step runs, and the round-up
    width of the class would be 8. *)
Lemma buy_10_126_at_0_4567_is_not_rounded :
  roundDown 10.126 2 = 10.12%float
  /\ roundNormal 0.4567 2 = 0.46%float
  /\ (roundDown 10.126 2 * roundNormal 0.4567 2)%float = 4.6551999999999998%float
  /\ Sprintf_f 10 (roundDown 10.126 2 * roundNormal 0.4567 2)%float = "4.6552000000"
  /\ decimalPlaces (roundDown 10.126 2 * roundNormal 0.4567 2)%float = 4%nat
  /\ Amount (lookupConfig "0.01") = 4%nat
  /\ (Amount (lookupConfig "0.01")
       <? decimalPlaces (roundDown 10.126 2 * roundNormal 0.4567 2)%float)%nat
     = false
  /\ (Amount (lookupConfig "0.01") + 4 = 8)%nat
  /\ calculateOrderAmounts SideBuy 10.126 0.4567 "0.01"
     = (toUnits (roundDown 10.126 2 * roundNormal 0.4567 2)%float,
        toUnits (roundDown 10.126 2))
  /\ calculateOrderAmounts SideBuy 10.126 0.4567 "0.01" = (4655200, 10120000).
Proof. repeat split; vm_compute; reflexivity. Qed.

Section SigningFacts.

Variable PrivateKey : Type.
Variable HexToECDSA : string -> result PrivateKey.
Variable PubkeyToAddress : PrivateKey -> string.
Variable HexToAddress : string -> string.
Variable Sign : list Z -> PrivateKey -> result (list Z).
Variable EncodeToString : list Z -> string.
Variable orderMessageHash : Z -> string -> SignedOrder.t -> list Z.

(** C3. [BuildOrder] checks neither the amounts nor a key.  When it returns
    an order, the two amounts are the decimal texts of what
    [calculateOrderAmounts] gave, zero or negative included; it returns an
    error only when signing returned one, wrapped as [sign order: sign: ...];
    and when signing succeeds it returns an order.  The key is parsed by
    [NewClient], which fails with [parse private key: ...] exactly when the
    parse fails. *)
Theorem BuildOrder_fails_only_when_signing_fails
    (salt : string) (now : Z) (b : OrderBuilder PrivateKey)
    (order : UserOrder.t) (opts : CreateOrderOptions.t) :
  let amounts :=
    calculateOrderAmounts (UserOrder.Side order) (UserOrder.Size order)
      (UserOrder.Price order) (CreateOrderOptions.TickSize opts) in
  (forall so, BuildOrder PrivateKey Sign EncodeToString orderMessageHash salt now b order
         opts = Ok so ->
     SignedOrder.MakerAmount so = FormatInt (fst amounts)
     /\ SignedOrder.TakerAmount so = FormatInt (snd amounts))
  /\ (forall msg, BuildOrder PrivateKey Sign EncodeToString orderMessageHash salt now b order
         opts = Err msg ->
       exists m e, Sign m (privateKey PrivateKey b) = Err e
                   /\ msg = "sign order: " +:+ ("sign: " +:+ e))
  /\ ((forall m, exists sig, Sign m (privateKey PrivateKey b) = Ok sig) ->
      exists so, BuildOrder PrivateKey Sign EncodeToString orderMessageHash salt now b order
         opts = Ok so)
  /\ (forall cfg,
       match HexToECDSA (TrimPrefix (cfgPrivateKey cfg) "0x") with
       | Err e =>
           NewClient PrivateKey HexToECDSA PubkeyToAddress HexToAddress cfg
           = Err ("parse private key: " +:+ e)
       | Ok _ =>
           exists c,
             NewClient PrivateKey HexToECDSA PubkeyToAddress HexToAddress cfg
             = Ok c
       end).
Proof.
  intros amounts. subst amounts. unfold BuildOrder, signOrder.
  destruct (calculateOrderAmounts _ _ _ _) as [mk tk]. cbn [fst snd].
  match goal with
  | |- context [Sign ?m _] => set (msg0 := m)
  end.
  destruct (Sign msg0 (privateKey PrivateKey b)) as [sig|e] eqn:E.
  - split; [|split; [|split]].
    + intros so Hso. inversion Hso. split; reflexivity.
    + intros msg [=].
    + intros _. eexists. reflexivity.
    + intros cfg. unfold NewClient.
      destruct (HexToECDSA _); [eexists|]; reflexivity.
  - split; [|split; [|split]].
    + intros so [=].
    + intros msg Hmsg. inversion Hmsg. exists msg0, e. split; [exact E | reflexivity].
    + intros Hs. destruct (Hs msg0) as [sig Hsig]. congruence.
    + intros cfg. unfold NewClient.
      destruct (HexToECDSA _); [eexists|]; reflexivity.
Qed.

End SigningFacts.

(** With a signer that always signs, a BUY whose size is cut to 0 (0.001),
    one whose price rounds to 0 (0.001 at tick 0.01), and one of negative
    size all come back as orders, with amounts 0, or negative. *)
Lemma BuildOrder_returns_zero_amount_orders :
  let sign := fun (_ : list Z) (_ : unit) => Ok (repeat 0%Z 65) in
  let b := mkOrderBuilder unit tt 137 "0x0A" "0x0B" 0 in
  let build := BuildOrder unit sign (fun _ => "00") (fun _ _ _ => []) "1" 0 b in
  let opts := CreateOrderOptions.mk "0.01" false in
  amounts_of (build (UserOrder.mk "7" 0.5 0.001 "BUY" 0 0 0 "") opts)
  = Some ("0", "0")
  /\ amounts_of (build (UserOrder.mk "7" 0.001 10 "BUY" 0 0 0 "") opts)
     = Some ("0", "10000000")
  /\ amounts_of (build (UserOrder.mk "7" 0.5 (-1) "BUY" 0 0 0 "") opts)
     = Some ("-500000", "-1000000").
Proof. repeat split; vm_compute; reflexivity. Qed.

(** With the signer that always signs, the BUY of size 0.001 is built. *)
Lemma BuildOrder_fails_only_when_signing_fails_example :
  exists so,
    BuildOrder unit (fun _ _ => Ok (repeat 0%Z 65)) (fun _ => "00")
      (fun _ _ _ => []) "1" 0 (mkOrderBuilder unit tt 137 "0x0A" "0x0B" 0)
      (UserOrder.mk "7" 0.5 0.001 "BUY" 0 0 0 "")
      (CreateOrderOptions.mk "0.01" false) = Ok so.
Proof.
  apply (proj1 (proj2 (proj2
           (BuildOrder_fails_only_when_signing_fails unit (fun _ => Err "bad key")
              (fun _ => "0x0A") (fun a => a) (fun _ _ => Ok (repeat 0%Z 65))
              (fun _ => "00") (fun _ _ _ => []) "1" 0%Z
              (mkOrderBuilder unit tt 137 "0x0A" "0x0B" 0)
              (UserOrder.mk "7" 0.5 0.001 "BUY" 0 0 0 "")
              (CreateOrderOptions.mk "0.01" false))))).
  intros m. eexists. reflexivity.
Defined.

End ClobFacts.
(** ** The dual-leg run *)

Module HedgeFacts.
Import GoRuntime Common Hedge.

Section RunFacts.

Variable ParseFloat : string -> float.
Variable s_config : Config.
Variable env : Env.
Variable pair : AccountPair.

(** What a turn of the order loop comes to, read off its code: either it
    stops before any submission, or it submits the two orders [a] and [b]
    and goes on as the replies say. *)
Lemma attemptBody_shape (balanceA balanceB : float) (sel : Selected)
    (attempt : Z) (bestBid bestAsk : float) (step : Step) (evs : list Event) :
  attemptBody ParseFloat s_config env pair balanceA balanceB sel attempt
    bestBid bestAsk = (step, evs) ->
  let r := refreshBook ParseFloat s_config env sel attempt bestBid bestAsk in
  let bid := snd (fst r) in
  let ask := snd r in
  let pre := if (1 <? attempt)%Z then [EvSleep (GetRetryDelay s_config)] else [] in
  (evs = pre
   /\ (step = Continue bid ask \/ step = Return (failure pair "余额不足")))
  \/ exists a b : LegOrder.t,
       LegOrder.Price a = yesBuyPrice bid (tickSize sel)
       /\ LegOrder.Price b = noBuyPrice (LegOrder.Price a)
       /\ LegOrder.TokenID a = yesTokenID sel
       /\ LegOrder.TokenID b = noTokenID sel
       /\ LegOrder.Size a = LegOrder.Size b
       /\ let sub := pre ++ [EvSubmit LegA a; EvSubmit LegB b] in
          match CreateAndPostOrder env LegA attempt a,
                CreateAndPostOrder env LegB attempt b with
          | Ok orderA, Ok orderB =>
              if (String.length (OrderResponse.OrderID orderA) <? 16)%nat
                 || (String.length (OrderResponse.OrderID orderB) <? 16)%nat
              then step = Panic "slice bounds out of range" /\ evs = sub
              else
                match GetOrder env LegA attempt (OrderResponse.OrderID orderA),
                      GetOrder env LegB attempt (OrderResponse.OrderID orderB) with
                | Ok statusA, Ok statusB =>
                    if (0 <? ParseFloat (OpenOrder.SizeMatched statusA))%float
                       || (0 <? ParseFloat (OpenOrder.SizeMatched statusB))%float
                    then
                      step = Return
                               {| Result.Index := Index pair;
                                  Result.Success := true;
                                  Result.FilledA := OpenOrder.SizeMatched statusA;
                                  Result.FilledB := OpenOrder.SizeMatched statusB;
                                  Result.Error := "" |}
                      /\ evs = sub ++ [EvSleep 3]
                    else
                      step = Continue bid ask
                      /\ evs = (sub ++ [EvSleep 3])
                               ++ [EvCancel LegA (OrderResponse.OrderID orderA);
                                   EvCancel LegB (OrderResponse.OrderID orderB)]
                | _, _ =>
                    step = Panic "nil pointer dereference"
                    /\ evs = sub ++ [EvSleep 3]
                end
          | _, _ => step = Continue bid ask /\ evs = sub
          end.
Proof.
  unfold attemptBody, parseFloat.
  destruct (refreshBook ParseFloat s_config env sel attempt bestBid bestAsk)
    as [[skip bid] ask].
  cbn [fst snd]. cbv zeta.
  destruct skip.
  { intros [= <- <-]. left. split; [reflexivity | left; reflexivity]. }
  match goal with
  | |- (if ?c then _ else _) = _ -> _ => destruct c
  end.
  { intros [= <- <-]. left. split; [reflexivity | right; reflexivity]. }
  intros H. right.
  match type of H with
  | context [CreateAndPostOrder env LegA attempt ?a] => set (la := a) in *
  end.
  match type of H with
  | context [CreateAndPostOrder env LegB attempt ?b] => set (lb := b) in *
  end.
  exists la, lb.
  repeat (split; [reflexivity|]). cbv zeta.
  destruct (CreateAndPostOrder env LegA attempt la) as [orderA|eA];
    destruct (CreateAndPostOrder env LegB attempt lb) as [orderB|eB];
    try (injection H as <- <-; split; reflexivity).
  destruct ((String.length (OrderResponse.OrderID orderA) <? 16)%nat
            || (String.length (OrderResponse.OrderID orderB) <? 16)%nat).
  { injection H as <- <-. split; reflexivity. }
  destruct (GetOrder env LegA attempt (OrderResponse.OrderID orderA))
    as [statusA|eA];
    destruct (GetOrder env LegB attempt (OrderResponse.OrderID orderB))
      as [statusB|eB];
    try (injection H as <- <-; split; reflexivity).
  destruct ((0 <? ParseFloat (OpenOrder.SizeMatched statusA))%float
            || (0 <? ParseFloat (OpenOrder.SizeMatched statusB))%float);
    injection H as <- <-; split; reflexivity.
Qed.

Lemma submitted_pre (c : bool) (d : Z) (l : list Event) :
  submitted ((if c then [EvSleep d] else []) ++ l) = submitted l.
Proof. destruct c; reflexivity. Qed.

Lemma cancelled_pre (c : bool) (d : Z) (l : list Event) :
  cancelled ((if c then [EvSleep d] else []) ++ l) = cancelled l.
Proof. destruct c; reflexivity. Qed.

Lemma submitted_app (l1 l2 : list Event) :
  submitted (l1 ++ l2) = submitted l1 ++ submitted l2.
Proof. apply omap_app. Qed.

Lemma cancelled_app (l1 l2 : list Event) :
  cancelled (l1 ++ l2) = cancelled l1 ++ cancelled l2.
Proof. apply omap_app. Qed.











End RunFacts.

Section FailedLeg.

Variable ParseFloat : string -> float.
Variable ParseTokenIDs : string -> list string.
Variable s_config : Config.
Variable env : Env.
Variable pair : AccountPair.

Lemma attemptBody_failed_leg
    (f : Leg -> Z -> LegOrder.t -> result OrderResponse.t)
    (balanceA balanceB : float) (sel : Selected) (attempt : Z)
    (bestBid bestAsk : float) :
  some_leg_fails f ->
  attemptBody ParseFloat s_config (withSubmit env f) pair balanceA balanceB
    sel attempt bestBid bestAsk
  = attemptBody ParseFloat s_config (withSubmit env (fun _ _ _ => Err ""))
      pair balanceA balanceB sel attempt bestBid bestAsk
  /\ cancelled
       (snd (attemptBody ParseFloat s_config (withSubmit env f) pair balanceA
               balanceB sel attempt bestBid bestAsk)) = [].
Proof.
  intros Hf. unfold attemptBody.
  change (refreshBook ParseFloat s_config (withSubmit env f))
    with (refreshBook ParseFloat s_config env).
  change (refreshBook ParseFloat s_config (withSubmit env (fun _ _ _ => Err "")))
    with (refreshBook ParseFloat s_config env).
  destruct (refreshBook ParseFloat s_config env sel attempt bestBid bestAsk)
    as [[skip bid] ask].
  cbv zeta.
  destruct skip; [split; [reflexivity | destruct (1 <? attempt)%Z; reflexivity]|].
  match goal with
  | |- (if ?c then _ else _) = _ /\ _ => destruct c
  end; [split; [reflexivity | destruct (1 <? attempt)%Z; reflexivity]|].
  cbn [CreateAndPostOrder GetTickSize GetNegRisk GetOrder withSubmit].
  match goal with
  | |- context [f LegA attempt ?a] => set (la := a)
  end.
  match goal with
  | |- context [f LegB attempt ?b] => set (lb := b)
  end.
  specialize (Hf attempt la lb).
  destruct (f LegA attempt la) as [orderA|eA];
    destruct (f LegB attempt lb) as [orderB|eB];
    try discriminate Hf;
    (split; [reflexivity | cbn [snd]; apply cancelled_pre]).
Qed.

Lemma orderLoop_failed_leg
    (f : Leg -> Z -> LegOrder.t -> result OrderResponse.t)
    (balanceA balanceB : float) (sel : Selected) :
  some_leg_fails f ->
  forall (n : nat) (attempt : Z) (bestBid bestAsk : float),
    orderLoop ParseFloat s_config (withSubmit env f) pair balanceA balanceB
      sel n attempt bestBid bestAsk
    = orderLoop ParseFloat s_config (withSubmit env (fun _ _ _ => Err ""))
        pair balanceA balanceB sel n attempt bestBid bestAsk
    /\ cancelled
         (snd (orderLoop ParseFloat s_config (withSubmit env f) pair balanceA
                 balanceB sel n attempt bestBid bestAsk)) = [].
Proof.
  intros Hf. induction n as [|n IH]; intros attempt bestBid bestAsk.
  - split; reflexivity.
  - cbn [orderLoop].
    destruct (attemptBody_failed_leg f balanceA balanceB sel attempt bestBid
                bestAsk Hf) as [<- Hc].
    destruct (attemptBody ParseFloat s_config (withSubmit env f) pair balanceA
                balanceB sel attempt bestBid bestAsk) as [[bid ask|r|why] evs];
      cbn [snd] in Hc; [|split; [reflexivity | exact Hc]..].
    destruct (IH (attempt + 1)%Z bid ask) as [<- Hc'].
    destruct (orderLoop ParseFloat s_config (withSubmit env f) pair balanceA
                balanceB sel n (attempt + 1) bid ask) as [out evs'].
    split; [reflexivity|]. cbn [snd] in Hc' |- *.
    rewrite cancelled_app, Hc, Hc'. reflexivity.
Qed.

Lemma Execute_failed_leg
    (f : Leg -> Z -> LegOrder.t -> result OrderResponse.t) :
  some_leg_fails f ->
  Execute ParseFloat ParseTokenIDs s_config (withSubmit env f) pair
  = Execute ParseFloat ParseTokenIDs s_config
      (withSubmit env (fun _ _ _ => Err "")) pair
  /\ cancelled
       (snd (Execute ParseFloat ParseTokenIDs s_config (withSubmit env f) pair))
     = [].
Proof.
  intros Hf. unfold Execute.
  cbn [relayerNewClientA relayerNewClientB CreateOrDeriveApiKeyA
       CreateOrDeriveApiKeyB GetUSDCBalanceA GetUSDCBalanceB GetAccountStatusA
       GetAccountStatusB Shuffle withSubmit].
  change (selectMarket ParseFloat ParseTokenIDs s_config (withSubmit env f))
    with (selectMarket ParseFloat ParseTokenIDs s_config env).
  change (selectMarket ParseFloat ParseTokenIDs s_config
            (withSubmit env (fun _ _ _ => Err "")))
    with (selectMarket ParseFloat ParseTokenIDs s_config env).
  destruct (relayerNewClientA env); [|split; reflexivity].
  destruct (relayerNewClientB env); [|split; reflexivity].
  destruct (CreateOrDeriveApiKeyA env); [|split; reflexivity].
  destruct (CreateOrDeriveApiKeyB env); [|split; reflexivity].
  destruct (GetAccountStatusA env) as [statusA|]; [|split; reflexivity].
  destruct (GetAccountStatusB env) as [statusB|];
    [|split; [reflexivity | destruct (needsApproval statusA); reflexivity]].
  assert (Ha : forall l,
             cancelled (((if needsApproval statusA then [EvApprove LegA] else [])
                         ++ (if needsApproval statusB then [EvApprove LegB] else []))
                        ++ l) = cancelled l).
  { intros l. destruct (needsApproval statusA), (needsApproval statusB);
      reflexivity. }
  destruct (selectMarket ParseFloat ParseTokenIDs s_config env
              (Shuffle env (MarketURLs s_config))) as [sel|].
  - destruct (orderLoop_failed_leg f (okOr 0%float (GetUSDCBalanceA env))
                (okOr 0%float (GetUSDCBalanceB env)) sel Hf
                (Z.to_nat (MaxRetries s_config)) 1%Z (selBestBid sel)
                (selBestAsk sel)) as [<- Hc].
    destruct (orderLoop ParseFloat s_config (withSubmit env f) pair _ _ sel _ _
                _ _) as [out evs].
    split; [reflexivity|]. cbn [snd] in Hc |- *. rewrite Ha. exact Hc.
  - split; [reflexivity|]. cbn [snd]. rewrite <- (app_nil_r (_ ++ _)).
    rewrite Ha. reflexivity.
Qed.

(** C6. Both submissions of a turn are always sent.  When either is
    refused the turn ends there: nothing is cancelled and nothing about
    the turn is kept.  So over a run in which some leg of every turn is
    refused, what [Execute] returns, and all it did, is the same whether the
    other leg's orders were placed or not, and no placed order is
    cancelled. *)
Theorem refused_leg_is_not_reported
    (f1 f2 : Leg -> Z -> LegOrder.t -> result OrderResponse.t) :
  some_leg_fails f1 ->
  some_leg_fails f2 ->
  Execute ParseFloat ParseTokenIDs s_config (withSubmit env f1) pair
  = Execute ParseFloat ParseTokenIDs s_config (withSubmit env f2) pair
  /\ cancelled
       (snd (Execute ParseFloat ParseTokenIDs s_config (withSubmit env f1) pair))
     = [].
Proof.
  intros H1 H2.
  destruct (Execute_failed_leg f1 H1) as [E1 C1].
  destruct (Execute_failed_leg f2 H2) as [E2 _].
  split; [congruence | exact C1].
Qed.

End FailedLeg.




(** The sample run with leg A accepted and leg B refused, and with both
    refused: the same result and the same trace. *)
Lemma refused_leg_is_not_reported_example :
  let f1 := fun (leg : Leg) (_ : Z) (_ : LegOrder.t) =>
              match leg with LegA => Ok sampleOrderA | LegB => Err "rejected" end in
  let f2 := fun (_ : Leg) (_ : Z) (_ : LegOrder.t) =>
              @Err OrderResponse.t "rejected" in
  let env := sampleEnv (Err "") (Err "") "0" "0" in
  some_leg_fails f1 /\ some_leg_fails f2
  /\ Execute sampleParseFloat sampleParseTokenIDs (sampleConfig 2)
       (withSubmit env f1) samplePair
     = Execute sampleParseFloat sampleParseTokenIDs (sampleConfig 2)
         (withSubmit env f2) samplePair
  /\ cancelled
       (snd (Execute sampleParseFloat sampleParseTokenIDs (sampleConfig 2)
               (withSubmit env f1) samplePair)) = [].
Proof.
  intros f1 f2 env.
  assert (H1 : some_leg_fails f1) by (intros t a b; reflexivity).
  assert (H2 : some_leg_fails f2) by (intros t a b; reflexivity).
  split; [exact H1|]. split; [exact H2|].
  exact (refused_leg_is_not_reported sampleParseFloat sampleParseTokenIDs
           (sampleConfig 2) env samplePair f1 f2 H1 H2).
Defined.

(** The sample run with leg A accepted and leg B refused in both turns: two
    orders of leg A were placed, none was cancelled, and the result is the
    failure by retries, with both fill texts empty, as when both legs were
    refused. *)
Lemma placed_leg_is_dropped :
  let run reply :=
    Execute sampleParseFloat sampleParseTokenIDs (sampleConfig 2)
      (sampleEnv reply (Err "rejected") "0" "0") samplePair in
  fst (run (Ok sampleOrderA))
  = Returned
      {| Result.Index := 1; Result.Success := false; Result.FilledA := "";
         Result.FilledB := ""; Result.Error := "达到最大重试次数 2，未能成交" |}
  /\ map fst (submitted (snd (run (Ok sampleOrderA)))) = [LegA; LegB; LegA; LegB]
  /\ cancelled (snd (run (Ok sampleOrderA))) = []
  /\ run (Ok sampleOrderA) = run (Err "rejected").
Proof. repeat split; vm_compute; reflexivity. Qed.

End HedgeFacts.

(** * Properties *)

(** ** The order-book store *)

Module SwitcherFacts.
Import GoRuntime Switcher.

(** Inserting a level whose size is not "0", or deleting one, keeps a
    side map free of "0" sizes. *)
Lemma no_zero_size_empty : no_zero_size ∅.
Proof. intros p. by rewrite lookup_empty. Qed.

Lemma no_zero_size_insert (m : gmap string string) (p s : string) :
  no_zero_size m -> String.eqb s "0" = false -> no_zero_size (<[p := s]> m).
Proof.
  intros Hm Hs q. destruct (decide (p = q)) as [->|Hne].
  - rewrite lookup_insert_eq. intros [= ->]. by rewrite String.eqb_refl in Hs.
  - rewrite lookup_insert_ne; [apply Hm | done].
Qed.

Lemma no_zero_size_delete (m : gmap string string) (p : string) :
  no_zero_size m -> no_zero_size (delete p m).
Proof.
  intros Hm q. destruct (decide (p = q)) as [->|Hne].
  - by rewrite lookup_delete_eq.
  - rewrite lookup_delete_ne; [apply Hm | done].
Qed.

Lemma loadLevels_from_no_zero (levels : list OrderBookLevel.t) :
  forall m : gmap string string,
    no_zero_size m ->
    no_zero_size
      (foldl
         (fun m lvl =>
            if negb (String.eqb (OrderBookLevel.Size lvl) "0")
            then <[OrderBookLevel.Price lvl := OrderBookLevel.Size lvl]> m
            else m)
         m levels).
Proof.
  induction levels as [|lvl levels IH]; intros m Hm; [exact Hm|].
  cbn [foldl]. apply IH.
  destruct (String.eqb (OrderBookLevel.Size lvl) "0") eqn:E; cbn [negb].
  - exact Hm.
  - by apply no_zero_size_insert.
Qed.

Lemma ApplySnapshot_clean (ob : OrderBook) (snap : OrderBookSnapshot.t) :
  clean_book (ApplySnapshot ob snap).
Proof.
  split; cbn; apply loadLevels_from_no_zero, no_zero_size_empty.
Qed.

Lemma ApplyPriceChange_clean (ob : OrderBook) (ev : PriceChangeEvent.t) :
  clean_book ob -> clean_book (ApplyPriceChange ob ev).
Proof.
  intros [Hb Ha]. unfold ApplyPriceChange.
  destruct (String.eqb (PriceChangeEvent.Side ev) "BUY");
    destruct (String.eqb (PriceChangeEvent.Size ev) "0") eqn:E;
    split; cbn; auto using no_zero_size_delete, no_zero_size_insert.
Qed.

Lemma apply_deltas_clean (deltas : list PriceChangeEvent.t) :
  forall ob, clean_book ob -> clean_book (foldl ApplyPriceChange ob deltas).
Proof.
  induction deltas as [|ev deltas IH]; intros ob Hob; [exact Hob|].
  cbn [foldl]. by apply IH, ApplyPriceChange_clean.
Qed.

(** C7. After any snapshot and any sequence of price changes applied to
    any order book, neither the bids map nor the asks map holds an entry
    whose size is "0". *)
Theorem snapshot_then_deltas_never_store_zero
    (ob : OrderBook) (snap : OrderBookSnapshot.t)
    (deltas : list PriceChangeEvent.t) :
  clean_book (foldl ApplyPriceChange (ApplySnapshot ob snap) deltas).
Proof. apply apply_deltas_clean, ApplySnapshot_clean. Qed.

Lemma ApplyPriceChange_labels (ob : OrderBook) (ev : PriceChangeEvent.t) :
  AssetID (ApplyPriceChange ob ev) = AssetID ob
  /\ Side (ApplyPriceChange ob ev) = Side ob.
Proof.
  unfold ApplyPriceChange.
  destruct (String.eqb (PriceChangeEvent.Side ev) "BUY");
    destruct (String.eqb (PriceChangeEvent.Size ev) "0"); split; reflexivity.
Qed.

Lemma apply_deltas_labels (deltas : list PriceChangeEvent.t) :
  forall ob,
    AssetID (foldl ApplyPriceChange ob deltas) = AssetID ob
    /\ Side (foldl ApplyPriceChange ob deltas) = Side ob.
Proof.
  induction deltas as [|ev deltas IH]; intros ob; [split; reflexivity|].
  cbn [foldl]. destruct (IH (ApplyPriceChange ob ev)) as [-> ->].
  apply ApplyPriceChange_labels.
Qed.

(** C8. Applying a snapshot twice gives the book that applying it once
    gives.  A snapshot replaces both side maps and merges nothing: the
    book it leaves is the same whatever price changes came before it. *)
Theorem ApplySnapshot_idempotent
    (ob : OrderBook) (snap : OrderBookSnapshot.t)
    (deltas : list PriceChangeEvent.t) :
  ApplySnapshot (ApplySnapshot ob snap) snap = ApplySnapshot ob snap
  /\ ApplySnapshot (foldl ApplyPriceChange (ApplySnapshot ob snap) deltas) snap
     = ApplySnapshot ob snap.
Proof.
  split; [reflexivity|].
  unfold ApplySnapshot at 1.
  destruct (apply_deltas_labels deltas (ApplySnapshot ob snap)) as [-> ->].
  reflexivity.
Qed.

End SwitcherFacts.

(** ** The round scheduler's boundary alignment *)

Module TimeFacts.
Import GoRuntime Switcher RuntimeFacts.
Local Open Scope Z_scope.

Lemma era_checked : all_from doe_ok (Z.to_nat 146097) 0 = true.
Proof. vm_compute. reflexivity. Qed.

(** Within an era the two calendar conversions are inverse, and the
    fields are in range. *)
Lemma civil_of_doe_inv (doe : Z) :
  0 <= doe < 146097 ->
  forall yoe m d, GoTime.civil_of_doe doe = (yoe, m, d) ->
    0 <= yoe < 400 /\ 1 <= m <= 12 /\ 1 <= d <= 31
    /\ GoTime.doe_of_civil yoe m d = doe.
Proof.
  intros Hdoe yoe m d E.
  pose proof (all_from_spec doe_ok (Z.to_nat 146097) 0 era_checked doe) as H.
  rewrite Z2Nat.id in H by lia.
  specialize (H ltac:(lia)).
  unfold doe_ok in H. rewrite E in H.
  repeat (apply andb_prop in H as [H ?]).
  repeat split; lia.
Qed.

Lemma days_civil_inv (z : Z) :
  forall y m d, GoTime.civil_from_days z = (y, m, d) ->
    1 <= m <= 12 /\ GoTime.days_from_civil y m d = z.
Proof.
  intros y m d. unfold GoTime.civil_from_days.
  set (z' := z + 719468). set (era := z' / 146097).
  destruct (GoTime.civil_of_doe (z' - era * 146097)) as [[yoe m0] d0] eqn:E.
  intros [= <- <- <-].
  assert (Hdoe : 0 <= z' - era * 146097 < 146097).
  { pose proof (Z.div_mod z' 146097 ltac:(lia)).
    pose proof (Z.mod_pos_bound z' 146097 ltac:(lia)). subst era. lia. }
  destruct (civil_of_doe_inv _ Hdoe _ _ _ E) as (Hy & Hm & _ & Hr).
  split; [exact Hm|].
  unfold GoTime.days_from_civil.
  assert (Hyear : (if m0 <=? 2
                   then (if m0 <=? 2 then yoe + era * 400 + 1 else yoe + era * 400) - 1
                   else (if m0 <=? 2 then yoe + era * 400 + 1 else yoe + era * 400))
                  = yoe + era * 400).
  { destruct (m0 <=? 2); lia. }
  rewrite Hyear.
  assert (Hera : (yoe + era * 400) / 400 = era).
  { rewrite Z.div_add by lia. rewrite Z.div_small by lia. lia. }
  rewrite Hera.
  replace (yoe + era * 400 - era * 400) with yoe by lia.
  rewrite Hr. subst z'. lia.
Qed.

Lemma days_from_civil_shift (y m d k : Z) :
  GoTime.days_from_civil y m (d + k) = GoTime.days_from_civil y m d + k.
Proof. unfold GoTime.days_from_civil, GoTime.doe_of_civil. lia. Qed.

(** [time.Date] on the date of an instant, with a count of seconds of the
    day in place of the clock time. *)
Lemma Date_same_day (now : GoTime.t) (a : Z) :
  0 <= a < 86400 ->
  GoTime.Date (GoTime.Year now) (GoTime.Month now) (GoTime.Day now) 0 0 a 0
  = {| GoTime.unix := GoTime.unix now / 86400 * 86400 + a; GoTime.nsec := 0 |}.
Proof.
  intros Ha. unfold GoTime.Year, GoTime.Month, GoTime.Day.
  destruct (GoTime.civil_from_days (GoTime.unix now / 86400)) as [[y m] d] eqn:E.
  destruct (days_civil_inv _ _ _ _ E) as [Hm Hdays]. cbn [fst snd].
  unfold GoTime.Date, GoTime.norm.
  replace ((m - 1) / 12) with 0 by (symmetry; apply Z.div_small; lia).
  replace ((m - 1) mod 12) with (m - 1) by (symmetry; apply Z.mod_small; lia).
  replace (y + 0) with y by lia. replace (m - 1 + 1) with m by lia.
  rewrite days_from_civil_shift, Hdays.
  f_equal.
  replace (0 / 1000000000) with 0 by reflexivity.
  replace (a + 0) with a by lia.
  assert (H60 : (0 + a / 60) = a / 60) by lia. rewrite H60.
  assert (H3600 : (0 + a / 60 / 60) = a / 3600).
  { rewrite Z.div_div by lia. reflexivity. }
  rewrite H3600.
  replace (a / 3600 / 24) with 0
    by (symmetry; rewrite Z.div_div by lia; apply Z.div_small; lia).
  replace ((a / 3600) mod 24) with (a / 3600)
    by (symmetry; apply Z.mod_small; split;
        [apply Z.div_pos; lia | apply Z.div_lt_upper_bound; lia]).
  pose proof (Z.div_mod a 60 ltac:(lia)).
  pose proof (Z.div_mod (a / 60) 60 ltac:(lia)).
  assert (a / 60 / 60 = a / 3600) by (rewrite Z.div_div by lia; reflexivity).
  lia.
Qed.

Lemma clock_seconds (now : GoTime.t) :
  GoTime.Hour now * 3600 + GoTime.Minute now * 60 + GoTime.Second now
  = GoTime.unix now mod 86400.
Proof.
  unfold GoTime.Hour, GoTime.Minute, GoTime.Second.
  set (u := GoTime.unix now).
  pose proof (Z.div_mod u 86400 ltac:(lia)).
  pose proof (Z.mod_pos_bound u 86400 ltac:(lia)).
  pose proof (Z.div_mod u 3600 ltac:(lia)).
  pose proof (Z.mod_pos_bound u 3600 ltac:(lia)).
  pose proof (Z.div_mod u 60 ltac:(lia)).
  pose proof (Z.mod_pos_bound u 60 ltac:(lia)).
  pose proof (Z.div_mod (u mod 86400) 3600 ltac:(lia)).
  pose proof (Z.mod_pos_bound (u mod 86400) 3600 ltac:(lia)).
  pose proof (Z.div_mod (u mod 3600) 60 ltac:(lia)).
  pose proof (Z.mod_pos_bound (u mod 3600) 60 ltac:(lia)).
  assert ((u mod 86400) mod 3600 = u mod 3600).
  { apply Z.mod_mod_divide. exists 24; lia. }
  assert ((u mod 3600) mod 60 = u mod 60).
  { apply Z.mod_mod_divide. exists 60; lia. }
  lia.
Qed.

Lemma periodSec_15m :
  float_to_int (GoTime.Seconds (getPeriodDuration "15m")) = 900.
Proof. vm_compute. reflexivity. Qed.

(** The fields of an instant given as a day and a second of that day. *)
Lemma fields_of_day_second (u a : Z) :
  0 <= a < 86400 ->
  let r := {| GoTime.unix := u / 86400 * 86400 + a; GoTime.nsec := 0 |} in
  GoTime.unix r / 86400 = u / 86400
  /\ GoTime.Hour r = a / 3600
  /\ GoTime.Minute r = (a mod 3600) / 60
  /\ GoTime.Second r = a mod 60.
Proof.
  intros Ha r. subst r. unfold GoTime.Hour, GoTime.Minute, GoTime.Second.
  cbn [GoTime.unix].
  repeat split; Z.div_mod_to_equations; lia.
Qed.

(** C9. The round start is the clock time cut down to the period boundary:
    for period 15m it is the last multiple of 900 seconds, on the same date,
    in the same hour, at the last quarter of the hour (so 10:07:33 gives
    10:00:00); for period daily it is 00:00:00 of the same date. *)
Theorem calcCurrentRoundStart_truncates (now : GoTime.t) :
  (let r := calcCurrentRoundStart "15m" now in
   GoTime.unix r = 900 * (GoTime.unix now / 900)
   /\ GoTime.nsec r = 0
   /\ GoTime.Year r = GoTime.Year now
   /\ GoTime.Month r = GoTime.Month now
   /\ GoTime.Day r = GoTime.Day now
   /\ GoTime.Hour r = GoTime.Hour now
   /\ GoTime.Minute r = 15 * (GoTime.Minute now / 15)
   /\ GoTime.Second r = 0)
  /\ (let r := calcCurrentRoundStart "daily" now in
      GoTime.unix r = 86400 * (GoTime.unix now / 86400)
      /\ GoTime.nsec r = 0
      /\ GoTime.Year r = GoTime.Year now
      /\ GoTime.Month r = GoTime.Month now
      /\ GoTime.Day r = GoTime.Day now
      /\ GoTime.Hour r = 0
      /\ GoTime.Minute r = 0
      /\ GoTime.Second r = 0)
  /\ calcCurrentRoundStart "15m" (GoTime.Date 2024 3 5 10 7 33 0)
     = GoTime.Date 2024 3 5 10 0 0 0.
Proof.
  set (u := GoTime.unix now).
  split; [|split].
  - unfold calcCurrentRoundStart.
    change (String.eqb "15m" "daily") with false. cbv iota.
    rewrite periodSec_15m, clock_seconds. fold u.
    set (a := Z.quot (u mod 86400) 900 * 900).
    assert (Ha : a = (u mod 86400) / 900 * 900).
    { subst a. rewrite Z.quot_div_nonneg; [reflexivity | | lia].
      apply Z.mod_pos_bound; lia. }
    assert (Hr : 0 <= a < 86400).
    { rewrite Ha. Z.div_mod_to_equations; lia. }
    rewrite (Date_same_day now a Hr). fold u.
    destruct (fields_of_day_second u a Hr) as (Hd & Hh & Hm & Hs).
    unfold GoTime.Year, GoTime.Month, GoTime.Day.
    rewrite Hd, Hh, Hm, Hs. fold u.
    unfold GoTime.Hour, GoTime.Minute. fold u. cbn [GoTime.unix GoTime.nsec].
    rewrite Ha.
    repeat split; Z.div_mod_to_equations; lia.
  - unfold calcCurrentRoundStart.
    change (String.eqb "daily" "daily") with true. cbv iota.
    rewrite (Date_same_day now 0 ltac:(lia)). fold u.
    destruct (fields_of_day_second u 0 ltac:(lia)) as (Hd & Hh & Hm & Hs).
    unfold GoTime.Year, GoTime.Month, GoTime.Day.
    rewrite Hd, Hh, Hm, Hs. fold u. cbn [GoTime.unix GoTime.nsec].
    repeat split; try reflexivity; Z.div_mod_to_equations; lia.
  - vm_compute. reflexivity.
Qed.

End TimeFacts.
Module WssFacts.
Import GoRuntime Wss.

(** [Close] on a connection whose stop channel is still open returns, and
    leaves the stop channel closed. *)
Lemma Close_open (c : Connection) :
  stopChClosed c = false ->
  exists c1, Close c = Done c1 tt /\ stopChClosed c1 = true.
Proof.
  destruct c as [ch cfg p so ic ii ra pt rt st]. cbn [stopChClosed].
  intros ->. destruct pt, rt; eexists; split; reflexivity.
Qed.

(** [Close] on a connection whose stop channel is already closed panics. *)
Lemma Close_closed (c : Connection) :
  stopChClosed c = true ->
  exists c1, Close c = Panicked c1 "close of closed channel".
Proof.
  destruct c as [ch cfg p so ic ii ra pt rt st]. cbn [stopChClosed].
  intros ->. destruct pt, rt; eexists; reflexivity.
Qed.

(** C10. On a fresh connection the first [Close] returns and the second one
    panics with the runtime error of closing a closed channel: the call is
    not idempotent. *)
Theorem Close_twice_panics (ch : string) (cfg : ClientConfig) (payload : string) :
  exists c1 c2,
    Close (NewConnection ch cfg payload) = Done c1 tt
    /\ Close c1 = Panicked c2 "close of closed channel".
Proof.
  destruct (Close_open (NewConnection ch cfg payload) eq_refl) as (c1 & H1 & Hc).
  destruct (Close_closed c1 Hc) as (c2 & H2).
  exists c1, c2. split; assumption.
Qed.

End WssFacts.
(** ** The order book: what a level holds after a snapshot or deltas *)

Module SwitcherLevels.
Import GoRuntime Switcher.

Lemma eqb_eq_s (a b : string) : String.eqb a b = true -> a = b.
Proof. apply String.eqb_eq. Qed.

Lemma eqb_neq_s (a b : string) : String.eqb a b = false -> a <> b.
Proof. apply String.eqb_neq. Qed.

(** One price change, seen from the map [levels buy] at price [p]. *)
Lemma ApplyPriceChange_level (buy : bool) (p : string) (ob : OrderBook)
    (ev : PriceChangeEvent.t) :
  levels buy (ApplyPriceChange ob ev) !! p
  = if touches buy p ev
    then if String.eqb (PriceChangeEvent.Size ev) "0" then None
         else Some (PriceChangeEvent.Size ev)
    else levels buy ob !! p.
Proof.
  unfold touches, ApplyPriceChange, levels.
  destruct (String.eqb (PriceChangeEvent.Side ev) "BUY");
    destruct (String.eqb (PriceChangeEvent.Size ev) "0");
    destruct buy; cbn [Bool.eqb andb Bids Asks]; try reflexivity;
    destruct (String.eqb (PriceChangeEvent.Price ev) p) eqn:E;
    try (apply eqb_eq_s in E; subst p);
    try (apply eqb_neq_s in E);
    rewrite ?lookup_delete_eq, ?lookup_insert_eq;
    rewrite ?lookup_delete_ne, ?lookup_insert_ne by exact E; reflexivity.
Qed.

Lemma untouched_level (buy : bool) (p : string)
    (deltas : list PriceChangeEvent.t) (ob : OrderBook) :
  Forall (fun e => touches buy p e = false) deltas ->
  levels buy (foldl ApplyPriceChange ob deltas) !! p = levels buy ob !! p.
Proof.
  intros H. revert ob. induction H as [|ev deltas Hev _ IH]; intros ob.
  - reflexivity.
  - cbn [foldl]. rewrite IH, ApplyPriceChange_level, Hev. reflexivity.
Qed.

(** After a sequence of price changes, the level of a side map at a price
    is what the last change written to it says: absent when that change
    has size "0", its size otherwise; a level no change is written to is as
    it was before. *)
Theorem last_price_change_decides_level (buy : bool) (p : string)
    (deltas : list PriceChangeEvent.t) (ob : OrderBook) :
  (Forall (fun e => touches buy p e = false) deltas ->
   levels buy (foldl ApplyPriceChange ob deltas) !! p = levels buy ob !! p)
  /\ (forall pre ev post,
        deltas = pre ++ ev :: post ->
        touches buy p ev = true ->
        Forall (fun e => touches buy p e = false) post ->
        levels buy (foldl ApplyPriceChange ob deltas) !! p
        = if String.eqb (PriceChangeEvent.Size ev) "0" then None
          else Some (PriceChangeEvent.Size ev)).
Proof.
  split; [apply untouched_level|].
  intros pre ev post -> Hev Hpost.
  rewrite foldl_app. cbn [foldl].
  rewrite (untouched_level buy p post _ Hpost), ApplyPriceChange_level, Hev.
  reflexivity.
Qed.

(** What [loadLevels] holds at a price, by the last level of the list that
    is stored there. *)
Lemma loadLevels_from_lookup (p : string) (lvls : list OrderBookLevel.t) :
  forall m : gmap string string,
    foldl
      (fun m lvl =>
         if negb (String.eqb (OrderBookLevel.Size lvl) "0")
         then <[OrderBookLevel.Price lvl := OrderBookLevel.Size lvl]> m
         else m) m lvls !! p
    = match list_find (fun l => stores p l = true) (reverse lvls) with
      | Some (_, lvl) => Some (OrderBookLevel.Size lvl)
      | None => m !! p
      end.
Proof.
  induction lvls as [|lvl lvls IH] using rev_ind; intros m.
  - reflexivity.
  - rewrite foldl_app, reverse_app. cbn [foldl reverse app].
    change (reverse [lvl]) with [lvl]. cbn [app list_find].
    destruct (decide (stores p lvl = true)) as [Hs|Hs].
    + unfold stores in Hs. apply andb_prop in Hs as [Hp Hz].
      rewrite Hz. apply eqb_eq_s in Hp. subst p. cbn. apply lookup_insert_eq.
    + assert (E : (if negb (String.eqb (OrderBookLevel.Size lvl) "0")
                   then <[OrderBookLevel.Price lvl := OrderBookLevel.Size lvl]>
                          (foldl
                             (fun m lvl =>
                                if negb (String.eqb (OrderBookLevel.Size lvl) "0")
                                then <[OrderBookLevel.Price lvl
                                       := OrderBookLevel.Size lvl]> m
                                else m) m lvls)
                   else foldl
                          (fun m lvl =>
                             if negb (String.eqb (OrderBookLevel.Size lvl) "0")
                             then <[OrderBookLevel.Price lvl
                                    := OrderBookLevel.Size lvl]> m
                             else m) m lvls) !! p
                  = foldl
                      (fun m lvl =>
                         if negb (String.eqb (OrderBookLevel.Size lvl) "0")
                         then <[OrderBookLevel.Price lvl
                                := OrderBookLevel.Size lvl]> m
                         else m) m lvls !! p).
      { unfold stores in Hs.
        destruct (negb (String.eqb (OrderBookLevel.Size lvl) "0"));
          [|reflexivity].
        rewrite andb_true_r in Hs.
        destruct (String.eqb (OrderBookLevel.Price lvl) p) eqn:Ep;
          [contradiction|].
        apply eqb_neq_s in Ep. apply lookup_insert_ne. exact Ep. }
      rewrite E, IH.
      destruct (list_find _ (reverse lvls)) as [[i l]|]; reflexivity.
Qed.

(** After a snapshot, a side map holds at a price the size of the last
    listed level with that price and a size other than "0", and nothing
    when there is none; a listed level of size "0" removes nothing, so an
    earlier level of the same price stays. *)
Theorem snapshot_level_is_last_stored (ob : OrderBook)
    (snap : OrderBookSnapshot.t) (p : string) :
  (forall pre lvl post,
     OrderBookSnapshot.Bids snap = pre ++ lvl :: post ->
     stores p lvl = true ->
     Forall (fun l => stores p l = false) post ->
     Bids (ApplySnapshot ob snap) !! p = Some (OrderBookLevel.Size lvl))
  /\ (Forall (fun l => stores p l = false) (OrderBookSnapshot.Bids snap) ->
      Bids (ApplySnapshot ob snap) !! p = None)
  /\ (forall pre lvl post,
        OrderBookSnapshot.Asks snap = pre ++ lvl :: post ->
        stores p lvl = true ->
        Forall (fun l => stores p l = false) post ->
        Asks (ApplySnapshot ob snap) !! p = Some (OrderBookLevel.Size lvl))
  /\ (Forall (fun l => stores p l = false) (OrderBookSnapshot.Asks snap) ->
      Asks (ApplySnapshot ob snap) !! p = None).
Proof.
  assert (Hsome : forall lvls pre lvl post,
             lvls = pre ++ lvl :: post -> stores p lvl = true ->
             Forall (fun l => stores p l = false) post ->
             loadLevels lvls !! p = Some (OrderBookLevel.Size lvl)).
  { intros lvls pre lvl post -> Hl Hpost. unfold loadLevels.
    rewrite loadLevels_from_lookup, reverse_app, reverse_cons, <- app_assoc.
    assert (Hnone : list_find (fun l => stores p l = true) (reverse post) = None).
    { apply list_find_None. apply Forall_reverse.
      eapply Forall_impl; [exact Hpost|]. cbn. intros l ->. discriminate. }
    destruct (list_find (fun l => stores p l = true)
                (reverse post ++ [lvl] ++ reverse pre)) as [[i l]|] eqn:E.
    - apply list_find_app_Some in E as [E|(_ & _ & E)]; [congruence|].
      cbn in E. rewrite decide_True in E by exact Hl.
      injection E as _ <-. reflexivity.
    - apply list_find_None in E. apply Forall_app in E as [_ E].
      apply Forall_app in E as [E _]. apply Forall_inv in E. contradiction. }
  assert (Hnone : forall lvls,
             Forall (fun l => stores p l = false) lvls ->
             loadLevels lvls !! p = None).
  { intros lvls H. unfold loadLevels. rewrite loadLevels_from_lookup.
    assert (E : list_find (fun l => stores p l = true) (reverse lvls) = None).
    { apply list_find_None. apply Forall_reverse.
      eapply Forall_impl; [exact H|]. cbn. intros l ->. discriminate. }
    rewrite E. apply lookup_empty. }
  unfold ApplySnapshot. cbn [Bids Asks].
  split; [intros pre lvl post; apply Hsome|].
  split; [apply Hnone|].
  split; [intros pre lvl post; apply Hsome | apply Hnone].
Qed.

End SwitcherLevels.
(** ** Round starts for every period *)

Module RoundFacts.
Import GoRuntime Switcher RuntimeFacts TimeFacts.
Local Open Scope Z_scope.

Lemma periodSec_values (period : string) :
  let P := float_to_int (GoTime.Seconds (getPeriodDuration period)) in
  (P = 900 \/ P = 3600 \/ P = 14400 \/ P = 86400)
  /\ (String.eqb period "daily" = true -> P = 86400)
  /\ (String.eqb period "1h" = false -> String.eqb period "4h" = false ->
      String.eqb period "daily" = false -> P = 900).
Proof.
  unfold getPeriodDuration.
  destruct (String.eqb period "15m") eqn:E1.
  { apply String.eqb_eq in E1. subst period.
    repeat split; try (intros; discriminate); vm_compute; auto. }
  destruct (String.eqb period "1h") eqn:E2.
  { apply String.eqb_eq in E2. subst period.
    repeat split; try (intros; discriminate); vm_compute; auto. }
  destruct (String.eqb period "4h") eqn:E3.
  { apply String.eqb_eq in E3. subst period.
    repeat split; try (intros; discriminate); vm_compute; auto. }
  destruct (String.eqb period "daily") eqn:E4.
  { repeat split; try (intros; discriminate); vm_compute; auto. }
  repeat split; try (intros; discriminate); vm_compute; auto.
Qed.

(** The closed form of the round start: the clock cut down to a whole
    number of periods since the Unix epoch. *)
Lemma round_start_closed (period : string) (now : GoTime.t) :
  calcCurrentRoundStart period now
  = {| GoTime.unix :=
         float_to_int (GoTime.Seconds (getPeriodDuration period))
         * (GoTime.unix now
            / float_to_int (GoTime.Seconds (getPeriodDuration period)));
       GoTime.nsec := 0 |}.
Proof.
  destruct (periodSec_values period) as (HP & Hd & _).
  unfold calcCurrentRoundStart.
  set (P := float_to_int (GoTime.Seconds (getPeriodDuration period))) in *.
  set (u := GoTime.unix now).
  destruct (String.eqb period "daily") eqn:Ed.
  - rewrite (Hd eq_refl). rewrite (Date_same_day now 0) by lia. fold u.
    f_equal. Z.div_mod_to_equations; lia.
  - rewrite clock_seconds. fold u.
    set (a := Z.quot (u mod 86400) P * P).
    assert (Ha : a = (u mod 86400) / P * P).
    { subst a. rewrite Z.quot_div_nonneg; [reflexivity | | lia].
      apply Z.mod_pos_bound; lia. }
    assert (Hr : 0 <= a < 86400).
    { rewrite Ha. destruct HP as [->|[->|[->| ->]]];
        Z.div_mod_to_equations; lia. }
    rewrite (Date_same_day now a Hr). fold u. f_equal. rewrite Ha.
    destruct HP as [->|[->|[->| ->]]]; Z.div_mod_to_equations; lia.
Qed.

(** For every period setting the round start is at or before the clock
    and less than one period before it, it is a whole number of periods
    since the Unix epoch, and computing the round start of a round start
    gives it back.  The period is 900, 3600, 14400 or 86400 seconds; a
    setting other than 1h, 4h and daily counts as 15m. *)
Theorem round_start_contains_the_clock (period : string) (now : GoTime.t) :
  let P := float_to_int (GoTime.Seconds (getPeriodDuration period)) in
  let r := calcCurrentRoundStart period now in
  (P = 900 \/ P = 3600 \/ P = 14400 \/ P = 86400)
  /\ (String.eqb period "1h" = false -> String.eqb period "4h" = false ->
      String.eqb period "daily" = false ->
      P = 900 /\ r = calcCurrentRoundStart "15m" now)
  /\ GoTime.unix r = P * (GoTime.unix now / P)
  /\ GoTime.nsec r = 0
  /\ GoTime.unix r <= GoTime.unix now < GoTime.unix r + P
  /\ calcCurrentRoundStart period r = r.
Proof.
  intros P r.
  destruct (periodSec_values period) as (HP & _ & H15).
  fold P in HP, H15.
  assert (Er : r = {| GoTime.unix := P * (GoTime.unix now / P);
                      GoTime.nsec := 0 |}) by apply round_start_closed.
  split; [exact HP|].
  split.
  { intros E1 E2 E3. specialize (H15 E1 E2 E3). split; [exact H15|].
    rewrite Er, H15, (round_start_closed "15m" now).
    rewrite periodSec_15m. reflexivity. }
  assert (HPpos : 0 < P) by (destruct HP as [->|[->|[->| ->]]]; lia).
  split; [rewrite Er; reflexivity|].
  split; [rewrite Er; reflexivity|].
  split.
  { rewrite Er. cbn [GoTime.unix].
    pose proof (Z.div_mod (GoTime.unix now) P ltac:(lia)).
    pose proof (Z.mod_pos_bound (GoTime.unix now) P HPpos). lia. }
  rewrite (round_start_closed period r). fold P. rewrite Er.
  cbn [GoTime.unix].
  assert (E : P * (GoTime.unix now / P) / P = GoTime.unix now / P).
  { rewrite Z.mul_comm. apply Z.div_mul. lia. }
  rewrite E. reflexivity.
Qed.

End RoundFacts.
(** ** Order amounts: signs, bounds, sides and validation *)

Module AmountFacts.
Import GoRuntime Clob RuntimeFacts ClobFacts.
Local Open Scope Z_scope.

Lemma length_TrimRight (s : string) (c : ascii) :
  (String.length (TrimRight s c) <= String.length s)%nat.
Proof.
  induction s as [|a s IH]; [reflexivity|]. cbn [TrimRight].
  destruct (Ascii.eqb a c && String.eqb (TrimRight s c) ""); cbn; lia.
Qed.

(** The two parts of the text [%.<p>f] gives for a finite number. *)
Lemma Split_Sprintf_f (p : nat) (v : float) (s : bool) (n d : Z) :
  (0 < p)%nat ->
  decompose v = Some (s, (n, d)) ->
  let r := round_half_even (n * 10 ^ Z.of_nat p) d in
  exists k : nat,
    Split (Sprintf_f p v) "."
    = [(if s then "-" else "") +:+ fixed_digits k (r / 10 ^ Z.of_nat p);
       fixed_digits p r]
    /\ 0 <= r /\ 0 <= r / 10 ^ Z.of_nat p < 10 ^ Z.of_nat k.
Proof.
  intros Hp H r. destruct (decompose_nonneg v s n d H) as [Hn Hd].
  assert (Hpow : 0 < 10 ^ Z.of_nat p) by (apply Z.pow_pos_nonneg; lia).
  destruct (round_half_even_near (n * 10 ^ Z.of_nat p) d ltac:(nia) Hd)
    as [Hr _]. fold r in Hr.
  assert (Hq : 0 <= r / 10 ^ Z.of_nat p) by (apply Z.div_pos; lia).
  destruct (FormatUint_fixed _ Hq) as (k & Ek & Hk).
  exists k. split; [|split; [exact Hr | split; [exact Hq | exact Hk]]].
  unfold Sprintf_f. rewrite H. fold r. rewrite Ek.
  destruct p as [|p]; [lia|].
  rewrite <- app_assoc_s.
  assert (Hs : Split ((if s then "-" else "")
                      +:+ fixed_digits k (r / 10 ^ Z.of_nat (S p))) "."
               = [(if s then "-" else "")
                  +:+ fixed_digits k (r / 10 ^ Z.of_nat (S p))]).
  { destruct s.
    - rewrite app_cons, app_nil. cbn [Split].
      change (Ascii.eqb "-" ".") with false. cbv iota.
      rewrite Split_fixed_digits. reflexivity.
    - rewrite app_nil. apply Split_fixed_digits. }
  rewrite (Split_app_single _ _ _ Hs).
  cbn [Split]. change (Ascii.eqb "." ".") with true. cbv iota.
  rewrite Split_fixed_digits, app_empty_r. reflexivity.
Qed.

Lemma toUnits_negative (v : float) (n d : Z) :
  decompose v = Some (true, (n, d)) ->
  toUnits v = - round_half_even (n * 1000000) d.
Proof.
  intros H.
  destruct (Split_Sprintf_f 6 v true n d ltac:(lia) H)
    as (k & ES & Hr & Hq & Hk).
  change (10 ^ Z.of_nat 6) with 1000000 in *.
  set (r := round_half_even (n * 1000000) d) in *.
  unfold toUnits. rewrite ES. cbn [hd]. cbv iota.
  rewrite pad6_full by apply length_fixed_digits.
  rewrite length_fixed_digits. change (6 <? 6)%nat with false. cbv iota.
  rewrite app_assoc_s, app_cons, app_nil.
  assert (Hp : parse_digits 0 (fixed_digits k (r / 1000000) +:+ fixed_digits 6 r)
               = Some r).
  { rewrite parse_digits_app, parse_fixed_digits by lia.
    rewrite parse_fixed_digits by exact Hr.
    change (10 ^ Z.of_nat 6) with 1000000.
    rewrite (Z.mod_small (r / 1000000)) by lia.
    f_equal. pose proof (Z.div_mod r 1000000 ltac:(lia)). lia. }
  destruct (fixed_digits k (r / 1000000) +:+ fixed_digits 6 r) as [|c s] eqn:E.
  { apply (f_equal String.length) in E.
    rewrite length_app_s, !length_fixed_digits in E. simpl in E. lia. }
  cbn [SetString]. rewrite Hp. reflexivity.
Qed.

Lemma toUnits_not_finite (v : float) : decompose v = None -> toUnits v = 0.
Proof.
  unfold toUnits, Sprintf_f, decompose.
  destruct (Prim2SF v) as [s|s| |s m e]; try discriminate.
  - destruct s; intros _; reflexivity.
  - intros _. reflexivity.
  - destruct e; discriminate.
Qed.

Lemma decompose_opp (v : float) :
  decompose (- v)%float
  = match decompose v with
    | Some (s, nd) => Some (negb s, nd)
    | None => None
    end.
Proof.
  unfold decompose. rewrite FloatAxioms.opp_spec.
  destruct (Prim2SF v) as [s|s| |s m e]; cbn [SFopp]; try reflexivity.
  destruct e; reflexivity.
Qed.

(** The conversion to base units is odd: the units of the negated amount
    are the negated units, for every [float64].  A NaN or an infinite
    amount converts to 0, and a negative finite amount to minus the nearest
    integer to its magnitude scaled by 10^6. *)
Theorem toUnits_is_odd (v : float) :
  toUnits (- v)%float = - toUnits v
  /\ (decompose v = None -> toUnits v = 0)
  /\ (forall n d, decompose v = Some (true, (n, d)) ->
      toUnits v = - round_half_even (n * 1000000) d /\ toUnits v <= 0).
Proof.
  split; [|split].
  - pose proof (decompose_opp v) as Ho.
    destruct (decompose v) as [[s [n d]]|] eqn:E.
    + destruct s; cbn [negb] in Ho.
      * rewrite (toUnits_finite _ _ _ Ho), (toUnits_negative _ _ _ E). lia.
      * rewrite (toUnits_negative _ _ _ Ho), (toUnits_finite _ _ _ E).
        reflexivity.
    + rewrite (toUnits_not_finite _ Ho), (toUnits_not_finite _ E). reflexivity.
  - apply toUnits_not_finite.
  - intros n d H. rewrite (toUnits_negative _ _ _ H). split; [reflexivity|].
    destruct (decompose_nonneg v true n d H) as [Hn Hd].
    destruct (round_half_even_near (n * 1000000) d ltac:(lia) Hd) as [Hr _].
    lia.
Qed.

(** [decimalPlaces] is at most 10, the number of decimals it prints, and is
    0 for NaN and the infinities. *)
Theorem decimalPlaces_at_most_10 (v : float) :
  (decimalPlaces v <= 10)%nat /\ (decompose v = None -> decimalPlaces v = 0%nat).
Proof.
  assert (Hn : decompose v = None -> decimalPlaces v = 0%nat).
  { unfold decimalPlaces, Sprintf_f, decompose.
    destruct (Prim2SF v) as [s|s| |s m e]; try discriminate.
    - destruct s; intros _; reflexivity.
    - intros _. reflexivity.
    - destruct e; discriminate. }
  split; [|exact Hn].
  destruct (decompose v) as [[s [n d]]|] eqn:E; [|rewrite Hn; [lia | reflexivity]].
  destruct (Split_Sprintf_f 10 v s n d ltac:(lia) E) as (k & ES & _).
  unfold decimalPlaces. rewrite ES.
  etransitivity; [apply length_TrimRight|].
  rewrite length_fixed_digits. lia.
Qed.

(** For a side other than BUY in a listed tick-size class the maker amount
    is the size cut to the class's size width, and the taker amount comes
    from the raw product by the same two steps as a BUY's maker amount:
    kept when it prints with no more decimals than the amount width,
    otherwise rounded up at four more decimals and, only if that still
    prints with too many, rounded down at the amount width.  The side is
    compared with BUY alone: every other text, SELL or not, is a SELL. *)
Theorem sell_amounts_round_up_then_down
    (side : string) (size price : float) (tick : string) (cfg : RoundConfig) :
  roundingConfigs !! tick = Some cfg ->
  String.eqb side SideBuy = false ->
  let raw := (roundDown size (Size cfg) * roundNormal price (Price cfg))%float in
  let up := roundUp raw (Amount cfg + 4) in
  let maker := fst (calculateOrderAmounts side size price tick) in
  let taker := snd (calculateOrderAmounts side size price tick) in
  maker = toUnits (roundDown size (Size cfg))
  /\ ((decimalPlaces raw <= Amount cfg)%nat -> taker = toUnits raw)
  /\ ((Amount cfg < decimalPlaces raw)%nat ->
      (decimalPlaces up <= Amount cfg)%nat -> taker = toUnits up)
  /\ ((Amount cfg < decimalPlaces raw)%nat ->
      (Amount cfg < decimalPlaces up)%nat ->
      taker = toUnits (roundDown up (Amount cfg)))
  /\ calculateOrderAmounts side size price tick
     = calculateOrderAmounts SideSell size price tick.
Proof.
  intros H Hs raw up maker taker.
  destruct (roundingConfigs_listed tick cfg H) as [Hc Hp].
  subst maker taker. unfold calculateOrderAmounts.
  rewrite Hc, Hp, Hs. change (String.eqb SideSell SideBuy) with false.
  cbv iota. cbn [fst snd]. fold raw. fold up.
  split; [reflexivity|].
  split; [|split; [|split]].
  - intros Hle. apply Nat.ltb_ge in Hle. rewrite Hle. reflexivity.
  - intros Hlt Hle. apply Nat.ltb_lt in Hlt. apply Nat.ltb_ge in Hle.
    rewrite Hlt, Hle. reflexivity.
  - intros Hlt Hlt2. apply Nat.ltb_lt in Hlt. apply Nat.ltb_lt in Hlt2.
    rewrite Hlt, Hlt2. reflexivity.
  - reflexivity.
Qed.

(** A SELL of 2000000.33 at 0.57 with tick 0.01, and the same order with
    the side written in lower case as buy. *)
Lemma sell_amounts_round_up_then_down_example :
  roundingConfigs !! "0.01" = Some {| Price := 2; Size := 2; Amount := 4 |}
  /\ String.eqb "buy" SideBuy = false
  /\ calculateOrderAmounts "buy" 2000000.33 0.57 "0.01"
     = calculateOrderAmounts SideSell 2000000.33 0.57 "0.01"
  /\ calculateOrderAmounts SideSell 2000000.33 0.57 "0.01"
     = (2000000330000, 1140000188100).
Proof.
  assert (H : roundingConfigs !! "0.01"
              = Some {| Price := 2; Size := 2; Amount := 4 |})
    by (vm_compute; reflexivity).
  split; [exact H|]. split; [reflexivity|]. split; [|vm_compute; reflexivity].
  exact (proj2 (proj2 (proj2 (proj2
           (sell_amounts_round_up_then_down "buy" 2000000.33 0.57 "0.01" _ H
              eq_refl))))).
Defined.

(** A tick size that is not in the rounding table is handled as tick 0.01;
    so are the amounts of an order whose tick size text is empty. *)
Theorem unknown_tick_size_counts_as_0_01
    (side : string) (size price : float) (tick : string) :
  roundingConfigs !! tick = None ->
  calculateOrderAmounts side size price tick
  = calculateOrderAmounts side size price TickSize001.
Proof.
  intros H. unfold calculateOrderAmounts, lookupConfig. rewrite H.
  reflexivity.
Qed.

Lemma unknown_tick_size_counts_as_0_01_example :
  roundingConfigs !! "0.05" = None
  /\ calculateOrderAmounts SideBuy 10.126 0.4567 "0.05" = (4655200, 10120000).
Proof.
  split; [vm_compute; reflexivity|].
  rewrite (unknown_tick_size_counts_as_0_01 SideBuy 10.126 0.4567 "0.05")
    by (vm_compute; reflexivity).
  vm_compute. reflexivity.
Defined.

Lemma FormatUint_parse (n : Z) : 0 <= n -> parse_digits 0 (FormatUint n) = Some n.
Proof.
  intros Hn. destruct (FormatUint_fixed n Hn) as (k & -> & Hk).
  rewrite parse_fixed_digits by exact Hn.
  rewrite Z.mod_small by lia. reflexivity.
Qed.

Lemma digits_from_nonempty (fuel : nat) :
  forall (n : Z) (acc : string), acc <> "" -> digits_from fuel n acc <> "".
Proof.
  induction fuel as [|fuel IH]; intros n acc Hacc; [exact Hacc|].
  cbn [digits_from]. destruct (n / 10 =? 0); [discriminate|].
  apply IH. discriminate.
Qed.

Lemma FormatUint_nonempty (n : Z) : FormatUint n <> "".
Proof.
  unfold FormatUint. cbn [digits_from].
  destruct (n / 10 =? 0); [discriminate|].
  apply digits_from_nonempty. discriminate.
Qed.

Lemma FormatInt_nonempty (z : Z) : String.eqb (FormatInt z) "" = false.
Proof.
  apply String.eqb_neq. unfold FormatInt.
  destruct (z <? 0); [discriminate | apply FormatUint_nonempty].
Qed.

Lemma FormatInt_zero (z : Z) : String.eqb (FormatInt z) "0" = (z =? 0).
Proof.
  destruct (Z.eqb_spec z 0) as [->|Hz]; [reflexivity|].
  apply String.eqb_neq. unfold FormatInt.
  destruct (Z.ltb_spec z 0) as [Hneg|Hpos]; [discriminate|].
  intros E. pose proof (FormatUint_parse z Hpos) as P. rewrite E in P.
  change (parse_digits 0 "0") with (Some 0) in P. congruence.
Qed.

Lemma HasPrefix_0x (x : string) : HasPrefix ("0x" +:+ x) "0x" = true.
Proof.
  unfold HasPrefix. apply String.prefix_correct.
  rewrite app_cons, app_cons, app_nil. cbn. destruct x; reflexivity.
Qed.

Section Validation.

Variable PrivateKey : Type.
Variable Sign : list Z -> PrivateKey -> result (list Z).
Variable EncodeToString : list Z -> string.
Variable orderMessageHash : Z -> string -> SignedOrder.t -> list Z.

(** An order [BuildOrder] returned, for a builder with 0x-prefixed
    addresses and a signature type of 0 to 2, with a salt and a token id:
    [ValidateOrder] rejects it exactly when an amount is 0, the maker amount
    first.  Its checks of the side and of the signature never fail on a
    built order, and a negative amount passes. *)
Theorem built_order_is_valid_unless_an_amount_is_zero
    (salt : string) (now : Z) (b : OrderBuilder PrivateKey)
    (order : UserOrder.t) (opts : CreateOrderOptions.t) (so : SignedOrder.t) :
  BuildOrder PrivateKey Sign EncodeToString orderMessageHash salt now b order
    opts = Ok so ->
  salt <> "" ->
  UserOrder.TokenID order <> "" ->
  HasPrefix (funder PrivateKey b) "0x" = true ->
  HasPrefix (signer PrivateKey b) "0x" = true ->
  0 <= signatureType PrivateKey b <= 2 ->
  let amounts :=
    calculateOrderAmounts (UserOrder.Side order) (UserOrder.Size order)
      (UserOrder.Price order) (CreateOrderOptions.TickSize opts) in
  ValidateOrder so
  = if fst amounts =? 0 then Some "makerAmount must be positive"
    else if snd amounts =? 0 then Some "takerAmount must be positive"
    else None.
Proof.
  intros Hb Hsalt Htok Hf Hs Hty amounts. subst amounts.
  unfold BuildOrder, signOrder in Hb.
  destruct (calculateOrderAmounts _ _ _ _) as [mk tk]. cbn [fst snd].
  match type of Hb with
  | context [Sign ?m _] => set (msg0 := m) in Hb
  end.
  destruct (Sign msg0 (privateKey PrivateKey b)) as [sig|e]; [|discriminate].
  injection Hb as <-. unfold ValidateOrder.
  cbn [SignedOrder.Salt SignedOrder.Maker SignedOrder.Signer
       SignedOrder.TokenID SignedOrder.MakerAmount SignedOrder.TakerAmount
       SignedOrder.Side SignedOrder.SignatureType SignedOrder.Signature].
  apply String.eqb_neq in Hsalt. apply String.eqb_neq in Htok.
  rewrite Hsalt, Htok, Hf, Hs. cbn [negb orb].
  assert (Hfe : String.eqb (funder PrivateKey b) "" = false).
  { destruct (funder PrivateKey b); [discriminate Hf | reflexivity]. }
  assert (Hse : String.eqb (signer PrivateKey b) "" = false).
  { destruct (signer PrivateKey b); [discriminate Hs | reflexivity]. }
  rewrite Hfe, Hse. cbn [orb].
  rewrite !FormatInt_nonempty, !FormatInt_zero. cbn [orb].
  destruct (mk =? 0); [reflexivity|]. destruct (tk =? 0); [reflexivity|].
  assert (Hside : negb ((if String.eqb (UserOrder.Side order) SideSell
                         then 1 else 0) =? 0)
                  && negb ((if String.eqb (UserOrder.Side order) SideSell
                            then 1 else 0) =? 1) = false).
  { destruct (String.eqb (UserOrder.Side order) SideSell); reflexivity. }
  rewrite Hside.
  assert (Hty' : (signatureType PrivateKey b <? 0)
                 || (2 <? signatureType PrivateKey b) = false).
  { apply orb_false_intro; apply Z.ltb_ge; lia. }
  rewrite Hty', HasPrefix_0x. reflexivity.
Qed.

End Validation.

(** With a signer that always signs: a BUY of 10 at 0.5 is valid, a BUY of
    0.001 is rejected for its maker amount, and a BUY of -1 is valid. *)
Lemma built_order_is_valid_unless_an_amount_is_zero_example :
  let build :=
    BuildOrder unit (fun _ _ => Ok (repeat 0%Z 65)) (fun _ => "00")
      (fun _ _ _ => []) "1" 0 (mkOrderBuilder unit tt 137 "0x0A" "0x0B" 0) in
  let opts := CreateOrderOptions.mk "0.01" false in
  let verdict order :=
    match build order opts with
    | Ok so => Some (ValidateOrder so)
    | Err _ => None
    end in
  verdict (UserOrder.mk "7" 0.5 10 "BUY" 0 0 0 "") = Some None
  /\ verdict (UserOrder.mk "7" 0.5 0.001 "BUY" 0 0 0 "")
     = Some (Some "makerAmount must be positive")
  /\ verdict (UserOrder.mk "7" 0.5 (-1) "BUY" 0 0 0 "") = Some None.
Proof.
  intros build opts verdict.
  assert (H : forall order,
             UserOrder.TokenID order <> "" ->
             verdict order
             = Some (let amounts :=
                       calculateOrderAmounts (UserOrder.Side order)
                         (UserOrder.Size order) (UserOrder.Price order) "0.01" in
                     if fst amounts =? 0 then Some "makerAmount must be positive"
                     else if snd amounts =? 0
                          then Some "takerAmount must be positive"
                          else None)).
  { intros order Ht. unfold verdict.
    destruct (build order opts) as [so|e] eqn:Hb.
    - f_equal.
      apply (built_order_is_valid_unless_an_amount_is_zero unit
               (fun _ _ => Ok (repeat 0%Z 65)) (fun _ => "00") (fun _ _ _ => [])
               "1" 0 (mkOrderBuilder unit tt 137 "0x0A" "0x0B" 0) order opts so
               Hb);
        [discriminate | exact Ht | reflexivity | reflexivity | cbn; lia].
    - unfold build, BuildOrder, signOrder in Hb.
      destruct (calculateOrderAmounts _ _ _ _); discriminate Hb. }
  split; [|split]; (etransitivity; [apply H; discriminate|]);
    vm_compute; reflexivity.
Defined.

End AmountFacts.
(** ** The dual-leg run: bounds, results and set-up *)

Module RunBounds.
Import GoRuntime Common Hedge RuntimeFacts HedgeFacts.

Ltac no_return :=
  split; [cbn; lia | split; [cbn; lia | intros res Hr; discriminate Hr]].

Section Bounds.

Variable ParseFloat : string -> float.
Variable ParseTokenIDs : string -> list string.
Variable s_config : Config.
Variable env : Env.
Variable pair : AccountPair.

Lemma app_nonempty (a b : string) : a <> "" -> a +:+ b <> "".
Proof. destruct a as [|c a]; [congruence|]. intros _. rewrite app_cons. discriminate. Qed.

Lemma failure_well_formed (msg : string) :
  msg <> "" -> well_formed pair (failure pair msg).
Proof.
  intros H. split; [reflexivity|]. right. repeat split; try reflexivity. exact H.
Qed.

(** What one turn adds to the trace and what it can return. *)
Lemma attemptBody_counts (balanceA balanceB : float) (sel : Selected)
    (attempt : Z) (bestBid bestAsk : float) (step : Step) (evs : list Event) :
  attemptBody ParseFloat s_config env pair balanceA balanceB sel attempt
    bestBid bestAsk = (step, evs) ->
  (length (submitted evs) <= 2)%nat
  /\ (length (cancelled evs) <= length (submitted evs))%nat
  /\ (forall res, step = Return res ->
      well_formed pair res
      /\ (Result.Success res = true -> length (submitted evs) = 2%nat
                                    /\ cancelled evs = [])).
Proof.
  intros Hbody.
  destruct (attemptBody_shape _ _ _ _ _ _ _ _ _ _ _ _ Hbody)
    as [[-> Hstep] | (a & b & _ & _ & _ & _ & _ & Hm)].
  { assert (Es : submitted
                   (if (1 <? attempt)%Z then [EvSleep (GetRetryDelay s_config)]
                    else []) = []) by (destruct (1 <? attempt)%Z; reflexivity).
    assert (Ec : cancelled
                   (if (1 <? attempt)%Z then [EvSleep (GetRetryDelay s_config)]
                    else []) = []) by (destruct (1 <? attempt)%Z; reflexivity).
    rewrite Es, Ec. cbn [length]. split; [lia|]. split; [lia|].
    intros res Hr. destruct Hstep as [->| ->]; [discriminate|].
    injection Hr as <-. split; [apply failure_well_formed; discriminate|].
    intros Hs. discriminate Hs. }
  cbv zeta in Hm.
  destruct (CreateAndPostOrder env LegA attempt a) as [orderA|eA];
    destruct (CreateAndPostOrder env LegB attempt b) as [orderB|eB];
    [|destruct Hm as [-> ->];
      rewrite submitted_pre, cancelled_pre; no_return..].
  destruct ((String.length (OrderResponse.OrderID orderA) <? 16)%nat
            || (String.length (OrderResponse.OrderID orderB) <? 16)%nat).
  { destruct Hm as [-> ->].
    rewrite submitted_pre, cancelled_pre; no_return. }
  destruct (GetOrder env LegA attempt (OrderResponse.OrderID orderA))
    as [statusA|eA];
    destruct (GetOrder env LegB attempt (OrderResponse.OrderID orderB))
      as [statusB|eB];
    [|destruct Hm as [-> ->]; rewrite <- app_assoc;
      rewrite submitted_pre, cancelled_pre; no_return..].
  destruct ((0 <? ParseFloat (OpenOrder.SizeMatched statusA))%float
            || (0 <? ParseFloat (OpenOrder.SizeMatched statusB))%float);
    destruct Hm as [-> ->]; rewrite <- ?app_assoc;
    rewrite submitted_pre, cancelled_pre; [|no_return].
  split; [cbn; lia|]. split; [cbn; lia|].
  intros res Hr. injection Hr as <-.
  split; [|intros _; split; reflexivity].
  split; [reflexivity|]. left. split; reflexivity.
Qed.

Lemma orderLoop_counts (balanceA balanceB : float) (sel : Selected) (n : nat) :
  forall (attempt : Z) (bestBid bestAsk : float) (out : Outcome)
         (evs : list Event),
    orderLoop ParseFloat s_config env pair balanceA balanceB sel n attempt
      bestBid bestAsk = (out, evs) ->
    (length (submitted evs) <= 2 * n)%nat
    /\ (length (cancelled evs) <= length (submitted evs))%nat
    /\ (forall res, out = Returned res ->
        well_formed pair res
        /\ (Result.Success res = true -> (2 <= length (submitted evs))%nat)).
Proof.
  induction n as [|n IH]; intros attempt bestBid bestAsk out evs H.
  - cbn [orderLoop] in H. injection H as <- <-.
    split; [cbn; lia|]. split; [cbn; lia|].
    intros res Hr. injection Hr as <-.
    split; [|intros Hs; discriminate Hs].
    apply failure_well_formed, app_nonempty. discriminate.
  - cbn [orderLoop] in H.
    destruct (attemptBody ParseFloat s_config env pair balanceA balanceB sel
                attempt bestBid bestAsk) as [step evs1] eqn:Hb.
    destruct (attemptBody_counts _ _ _ _ _ _ _ _ Hb) as (Hs1 & Hc1 & Hr1).
    destruct step as [bid ask|r1|why].
    + destruct (orderLoop ParseFloat s_config env pair balanceA balanceB sel n
                  (attempt + 1) bid ask) as [out' evs'] eqn:Hl.
      injection H as <- <-.
      destruct (IH _ _ _ _ _ Hl) as (Hs2 & Hc2 & Hr2).
      rewrite submitted_app, cancelled_app, !length_app.
      split; [lia|]. split; [lia|].
      intros res Hr. destruct (Hr2 res Hr) as [Hw Hsucc].
      split; [exact Hw|]. intros Hok. specialize (Hsucc Hok). lia.
    + injection H as <- <-. split; [lia|]. split; [exact Hc1|].
      intros res Hr. injection Hr as <-.
      destruct (Hr1 r1 eq_refl) as [Hw Hsucc]. split; [exact Hw|].
      intros Hok. destruct (Hsucc Hok) as [-> _]. lia.
    + injection H as <- <-. split; [lia|]. split; [exact Hc1|].
      intros res Hr. discriminate Hr.
Qed.

Lemma approvals_submitted (sa sb : bool) (l : list Event) :
  submitted (((if sa then [EvApprove LegA] else [])
              ++ (if sb then [EvApprove LegB] else [])) ++ l) = submitted l
  /\ cancelled (((if sa then [EvApprove LegA] else [])
                 ++ (if sb then [EvApprove LegB] else [])) ++ l) = cancelled l.
Proof. destruct sa, sb; split; reflexivity. Qed.

(** What a run that got as far as the order loop did and returned. *)
Lemma Execute_cases :
  (submitted (snd (Execute ParseFloat ParseTokenIDs s_config env pair)) = []
   /\ cancelled (snd (Execute ParseFloat ParseTokenIDs s_config env pair)) = []
   /\ forall res,
        fst (Execute ParseFloat ParseTokenIDs s_config env pair) = Returned res ->
        well_formed pair res /\ Result.Success res = false)
  \/ exists sel out evs,
       isErr (relayerNewClientA env) = false
       /\ isErr (relayerNewClientB env) = false
       /\ isErr (CreateOrDeriveApiKeyA env) = false
       /\ isErr (CreateOrDeriveApiKeyB env) = false
       /\ isErr (GetAccountStatusA env) = false
       /\ isErr (GetAccountStatusB env) = false
       /\ selectMarket ParseFloat ParseTokenIDs s_config env
            (Shuffle env (MarketURLs s_config)) = Some sel
       /\ orderLoop ParseFloat s_config env pair
            (okOr 0%float (GetUSDCBalanceA env))
            (okOr 0%float (GetUSDCBalanceB env)) sel
            (Z.to_nat (MaxRetries s_config)) 1 (selBestBid sel) (selBestAsk sel)
          = (out, evs)
       /\ fst (Execute ParseFloat ParseTokenIDs s_config env pair) = out
       /\ submitted (snd (Execute ParseFloat ParseTokenIDs s_config env pair))
          = submitted evs
       /\ cancelled (snd (Execute ParseFloat ParseTokenIDs s_config env pair))
          = cancelled evs.
Proof.
  unfold Execute.
  destruct (relayerNewClientA env) as [?|e];
    [|left; split; [reflexivity|]; split; [reflexivity|];
      intros res Hr; injection Hr as <-;
      split; [apply failure_well_formed, app_nonempty; discriminate
             | reflexivity]].
  destruct (relayerNewClientB env) as [?|e];
    [|left; split; [reflexivity|]; split; [reflexivity|];
      intros res Hr; injection Hr as <-;
      split; [apply failure_well_formed, app_nonempty; discriminate
             | reflexivity]].
  destruct (CreateOrDeriveApiKeyA env) as [?|e];
    [|left; split; [reflexivity|]; split; [reflexivity|];
      intros res Hr; injection Hr as <-;
      split; [apply failure_well_formed, app_nonempty; discriminate
             | reflexivity]].
  destruct (CreateOrDeriveApiKeyB env) as [?|e];
    [|left; split; [reflexivity|]; split; [reflexivity|];
      intros res Hr; injection Hr as <-;
      split; [apply failure_well_formed, app_nonempty; discriminate
             | reflexivity]].
  destruct (GetAccountStatusA env) as [statusA|e];
    [|left; split; [reflexivity|]; split; [reflexivity|];
      intros res Hr; discriminate Hr].
  destruct (GetAccountStatusB env) as [statusB|e];
    [|left; split; [destruct (needsApproval statusA); reflexivity|];
      split; [destruct (needsApproval statusA); reflexivity|];
      intros res Hr; discriminate Hr].
  destruct (selectMarket ParseFloat ParseTokenIDs s_config env
              (Shuffle env (MarketURLs s_config))) as [sel|].
  - right.
    destruct (orderLoop ParseFloat s_config env pair
                (okOr 0%float (GetUSDCBalanceA env))
                (okOr 0%float (GetUSDCBalanceB env)) sel
                (Z.to_nat (MaxRetries s_config)) 1 (selBestBid sel)
                (selBestAsk sel)) as [out evs] eqn:Hl.
    exists sel, out, evs. cbn [fst snd isErr].
    destruct (approvals_submitted (needsApproval statusA)
                (needsApproval statusB) evs) as [Es Ec].
    repeat (split; [reflexivity|]). split; [exact Hl|].
    split; [reflexivity|]. split; [exact Es | exact Ec].
  - left. cbn [fst snd].
    destruct (approvals_submitted (needsApproval statusA)
                (needsApproval statusB) []) as [Es Ec].
    rewrite app_nil_r in Es, Ec.
    split; [exact Es|]. split; [exact Ec|].
    intros res Hr. injection Hr as <-.
    split; [apply failure_well_formed; discriminate | reflexivity].
Qed.

(** A run submits at most two orders for each of its [MaxRetries] turns,
    none when [MaxRetries] is zero or less, and cancels no more orders than
    it submitted. *)
Theorem Execute_submits_at_most_two_orders_per_retry :
  let evs := snd (Execute ParseFloat ParseTokenIDs s_config env pair) in
  (length (submitted evs) <= 2 * Z.to_nat (MaxRetries s_config))%nat
  /\ (length (cancelled evs) <= length (submitted evs))%nat
  /\ ((MaxRetries s_config <= 0)%Z -> submitted evs = [] /\ cancelled evs = []).
Proof.
  intros evs. subst evs.
  destruct Execute_cases
    as [(-> & -> & _)
       | (sel & out & evs & _ & _ & _ & _ & _ & _ & _ & Hl & _ & -> & ->)].
  - cbn [length]. split; [lia|]. split; [lia|]. intros _. split; reflexivity.
  - destruct (orderLoop_counts _ _ _ _ _ _ _ _ _ Hl) as (Hs & Hc & _).
    split; [exact Hs|]. split; [exact Hc|].
    intros Hm. assert (Z.to_nat (MaxRetries s_config) = 0%nat) as E by lia.
    rewrite E in Hs.
    destruct (submitted evs); [|cbn in Hs; lia].
    destruct (cancelled evs); [|cbn in Hc; lia]. split; reflexivity.
Qed.

(** Whatever a run returns carries the pair's index and is either a success
    with an empty error text, reached only after both orders of a turn were
    submitted, or a failure with an error text and empty fill texts. *)
Theorem Execute_result_is_well_formed (res : Result.t) :
  fst (Execute ParseFloat ParseTokenIDs s_config env pair) = Returned res ->
  well_formed pair res
  /\ (Result.Success res = true ->
      (2 <= length (submitted
                      (snd (Execute ParseFloat ParseTokenIDs s_config env pair))))%nat).
Proof.
  intros Hr.
  destruct Execute_cases
    as [(_ & _ & Hf)
       | (sel & out & evs & _ & _ & _ & _ & _ & _ & _ & Hl & Ho & -> & _)].
  - destruct (Hf res Hr) as [Hw Hs]. split; [exact Hw|].
    intros Hok. congruence.
  - rewrite Ho in Hr.
    destruct (orderLoop_counts _ _ _ _ _ _ _ _ _ Hl) as (_ & _ & Hres).
    exact (Hres res Hr).
Qed.



End Bounds.

(** The sample run whose leg B reports a fill: its result is a well-formed
    success reached after two submissions. *)
Lemma Execute_result_is_well_formed_example :
  let env := sampleEnv (Ok sampleOrderA) (Ok sampleOrderB) "0" "5" in
  let res :=
    {| Result.Index := 1; Result.Success := true; Result.FilledA := "0";
       Result.FilledB := "5"; Result.Error := "" |} in
  fst (Execute sampleParseFloat sampleParseTokenIDs (sampleConfig 2) env
         samplePair) = Returned res
  /\ well_formed samplePair res
  /\ (2 <= length (submitted
                     (snd (Execute sampleParseFloat sampleParseTokenIDs
                             (sampleConfig 2) env samplePair))))%nat.
Proof.
  intros env res.
  assert (H : fst (Execute sampleParseFloat sampleParseTokenIDs (sampleConfig 2)
                     env samplePair) = Returned res)
    by (vm_compute; reflexivity).
  split; [exact H|].
  destruct (Execute_result_is_well_formed sampleParseFloat sampleParseTokenIDs
              (sampleConfig 2) env samplePair res H) as [Hw Hs].
  split; [exact Hw | exact (Hs eq_refl)].
Defined.


End RunBounds.
(** ** The connection's life cycle *)

Module ConnectionFacts.
Import GoRuntime Wss.
Local Open Scope Z_scope.


(** A first [Close] returns and leaves the connection released: no socket,
    not connected, marked as closed on purpose, no heartbeat ticker and no
    reconnect timer, the stop channel closed; the channel, the
    configuration, the payload and the attempt counter are kept. *)
Theorem Close_releases_the_connection (c : Connection) :
  stopChClosed c = false ->
  exists c1,
    Close c = Done c1 tt
    /\ conn c1 = None /\ isConnected c1 = false
    /\ isIntentionalClose c1 = true
    /\ pingTimer c1 = false /\ reconnectTimer c1 = false
    /\ stopChClosed c1 = true
    /\ channel c1 = channel c /\ config c1 = config c
    /\ subscribePayload c1 = subscribePayload c
    /\ reconnectAttempts c1 = reconnectAttempts c.
Proof.
  destruct c as [ch cfg p so ic ii ra pt rt st]. cbn [stopChClosed].
  intros ->. destruct pt, rt; eexists; repeat split.
Qed.

Lemma Close_releases_the_connection_example :
  exists c1,
    Close (NewConnection "market" (mkClientConfig "wss://x" 10 5 10) "{}")
    = Done c1 tt
    /\ isIntentionalClose c1 = true /\ stopChClosed c1 = true.
Proof.
  destruct (Close_releases_the_connection
              (NewConnection "market" (mkClientConfig "wss://x" 10 5 10) "{}")
              eq_refl) as (c1 & H & _ & _ & Hi & _ & _ & Hs & _).
  exists c1. split; [exact H|]. split; [exact Hi | exact Hs].
Defined.



(** [handleClose] marks the connection as not connected and stops the
    heartbeat.  It arms the reconnect timer only when the connection was
    not closed on purpose, the limit of attempts is above zero and the
    attempt counter is below it; the counter then goes up by one and the
    delay is the configured delay times the new count.  A counter between
    0 and the limit stays there. *)
Theorem handleClose_reconnects_within_the_limit
    (code : Z) (reason : string) (c : Connection) :
  let c1 := fst (handleClose code reason c) in
  let notices := snd (handleClose code reason c) in
  let limit := MaxReconnectAttempts (config c) in
  isConnected c1 = false /\ pingTimer c1 = false
  /\ stopChClosed c1 = stopChClosed c /\ conn c1 = conn c
  /\ (isIntentionalClose c = true \/ limit <= 0 ->
      notices = [OnDisconnected code reason]
      /\ reconnectAttempts c1 = reconnectAttempts c
      /\ reconnectTimer c1 = reconnectTimer c)
  /\ (isIntentionalClose c = false -> 0 < limit ->
      limit <= reconnectAttempts c ->
      notices = [OnDisconnected code reason;
                 OnReconnectFail (reconnectAttempts c)]
      /\ reconnectAttempts c1 = reconnectAttempts c
      /\ reconnectTimer c1 = reconnectTimer c)
  /\ (isIntentionalClose c = false -> 0 < limit ->
      reconnectAttempts c < limit ->
      let delay :=
        wrap64 (ReconnectDelay (config c) * (reconnectAttempts c + 1)) in
      notices = [OnDisconnected code reason;
                 OnReconnecting (reconnectAttempts c + 1) delay;
                 ArmReconnect delay]
      /\ reconnectAttempts c1 = reconnectAttempts c + 1
      /\ reconnectTimer c1 = true)
  /\ (0 <= reconnectAttempts c <= limit ->
      0 <= reconnectAttempts c1 <= limit).
Proof.
  destruct c as [ch cfg p so ic ii ra pt rt st].
  cbv zeta. unfold handleClose, tryReconnect.
  cbn [config isIntentionalClose reconnectAttempts stopChClosed conn
       reconnectTimer].
  assert (Hp : forall c', config (stopPing c') = config c'
                          /\ isIntentionalClose (stopPing c') = isIntentionalClose c'
                          /\ reconnectAttempts (stopPing c') = reconnectAttempts c')
    by (intros c'; unfold stopPing; destruct (pingTimer c'); repeat split).
  destruct pt; cbn [stopPing pingTimer config isIntentionalClose
                    reconnectAttempts];
    destruct ii; cbn [negb andb];
    destruct (Z.ltb_spec 0 (MaxReconnectAttempts cfg));
    destruct (Z.leb_spec (MaxReconnectAttempts cfg) ra);
    cbn [fst snd isConnected pingTimer stopChClosed conn reconnectAttempts
         reconnectTimer];
    repeat split; try reflexivity; try lia; try discriminate;
    intros; try lia; try discriminate;
    repeat match goal with H : _ \/ _ |- _ => destruct H end;
    try discriminate; try lia; repeat split; try reflexivity; lia.
Qed.


End ConnectionFacts.
(** ** Index sets and price clamping *)

Module CommonFacts.
Import GoRuntime Common.
Local Open Scope Z_scope.

Lemma bit_of_shift (index i : Z) :
  0 <= index -> Z.testbit (Z.shiftl 1 index) i = (index =? i).
Proof. intros H. rewrite Z.shiftl_1_l. apply Z.pow2_bits_eqb. exact H. Qed.

Lemma indexSetLoop_spec (ids : list string) :
  forall (seen : gset Z) (z : Z),
    (forall i, i ∈ seen -> 0 <= i) ->
    0 <= z ->
    (forall i, Z.testbit z i = true <-> i ∈ seen) ->
    match indexSetLoop ids seen z with
    | IndexSet z' =>
        (forall id i, In id ids -> indexOf id = Some i -> 0 <= i)
        /\ 0 <= z'
        /\ (forall i, Z.testbit z' i = true
                      <-> i ∈ seen \/ exists id, In id ids /\ indexOf id = Some i)
    | IndexSetPanic _ =>
        exists id i, In id ids /\ indexOf id = Some i /\ i < 0
    end.
Proof.
  induction ids as [|id ids IH]; intros seen z Hseen Hz Hbits.
  - cbn [indexSetLoop]. split; [intros id i []|]. split; [exact Hz|].
    intros i. rewrite Hbits. split; [auto | intros [H|(id & [] & _)]; exact H].
  - cbn [indexSetLoop].
    assert (Hskip : indexOf id = None ->
              match indexSetLoop ids seen z with
              | IndexSet z' =>
                  (forall id0 i, In id0 (id :: ids) -> indexOf id0 = Some i -> 0 <= i)
                  /\ 0 <= z'
                  /\ (forall i, Z.testbit z' i = true
                                <-> i ∈ seen
                                    \/ exists id0, In id0 (id :: ids)
                                                   /\ indexOf id0 = Some i)
              | IndexSetPanic _ =>
                  exists id0 i, In id0 (id :: ids) /\ indexOf id0 = Some i /\ i < 0
              end).
    { intros Hnone. specialize (IH seen z Hseen Hz Hbits).
      destruct (indexSetLoop ids seen z) as [z'|why].
      - destruct IH as (Hpos & Hz' & Hb). split; [|split; [exact Hz'|]].
        + intros id0 i [<-|Hin] Hi; [congruence | eauto].
        + intros i. rewrite Hb. split.
          * intros [H|(id0 & Hin & Hi)]; [left; exact H|].
            right. exists id0. split; [right; exact Hin | exact Hi].
          * intros [H|(id0 & [<-|Hin] & Hi)]; [left; exact H | congruence|].
            right. exists id0. split; assumption.
      - destruct IH as (id0 & i & Hin & Hi & Hneg).
        exists id0, i. split; [right; exact Hin | split; assumption]. }
    unfold indexOf in Hskip at 1.
    destruct (String.length id <? 2)%nat eqn:El; [exact (Hskip eq_refl)|].
    destruct (ParseInt16 (substring (String.length id - 2) 2 id))
      as [index|] eqn:Ep; [|exact (Hskip eq_refl)].
    clear Hskip.
    assert (Hid : indexOf id = Some index).
    { unfold indexOf. rewrite El. exact Ep. }
    destruct (decide (index ∈ seen)) as [Hin|Hnin].
    + specialize (IH seen z Hseen Hz Hbits).
      destruct (indexSetLoop ids seen z) as [z'|why].
      * destruct IH as (Hpos & Hz' & Hb). split; [|split; [exact Hz'|]].
        -- intros id0 i [<-|Hin0] Hi; [|eauto].
           assert (i = index) as -> by congruence. apply Hseen, Hin.
        -- intros i. rewrite Hb. split.
           ++ intros [H|(id0 & Hin0 & Hi)]; [left; exact H|].
              right. exists id0. split; [right; exact Hin0 | exact Hi].
           ++ intros [H|(id0 & [<-|Hin0] & Hi)]; [left; exact H| |].
              ** left. assert (i = index) as -> by congruence. exact Hin.
              ** right. exists id0. split; assumption.
      * destruct IH as (id0 & i & Hin0 & Hi & Hneg).
        exists id0, i. split; [right; exact Hin0 | split; assumption].
    + destruct (Z.ltb_spec index 0) as [Hneg|Hpos].
      * exists id, index. split; [left; reflexivity | split; assumption].
      * assert (Hseen' : forall i, i ∈ ({[index]} ∪ seen : gset Z) -> 0 <= i).
        { intros i Hi. apply elem_of_union in Hi as [Hi|Hi];
            [apply elem_of_singleton in Hi; lia | apply Hseen, Hi]. }
        assert (Hz' : 0 <= Z.lor z (Z.shiftl 1 index)).
        { apply Z.lor_nonneg. split; [exact Hz|].
          apply Z.shiftl_nonneg. lia. }
        assert (Hbits' : forall i,
                   Z.testbit (Z.lor z (Z.shiftl 1 index)) i = true
                   <-> i ∈ ({[index]} ∪ seen : gset Z)).
        { intros i. rewrite Z.lor_spec, bit_of_shift by exact Hpos.
          rewrite orb_true_iff, Hbits, Z.eqb_eq, elem_of_union,
            elem_of_singleton.
          split; intros [H|H]; auto. }
        specialize (IH _ _ Hseen' Hz' Hbits').
        destruct (indexSetLoop ids ({[index]} ∪ seen) _) as [z'|why].
        -- destruct IH as (Hp & Hz'' & Hb). split; [|split; [exact Hz''|]].
           ++ intros id0 i [<-|Hin0] Hi; [|eauto]. congruence.
           ++ intros i. rewrite Hb, elem_of_union, elem_of_singleton. split.
              ** intros [[->|H]|(id0 & Hin0 & Hi)].
                 --- right. exists id. split; [left; reflexivity | exact Hid].
                 --- left. exact H.
                 --- right. exists id0. split; [right; exact Hin0 | exact Hi].
              ** intros [H|(id0 & [<-|Hin0] & Hi)].
                 --- left. right. exact H.
                 --- left. left. congruence.
                 --- right. exists id0. split; assumption.
        -- destruct IH as (id0 & i & Hin0 & Hi & Hneg).
           exists id0, i. split; [right; exact Hin0 | split; assumption].
Qed.

(** [CalculateIndexSet] panics exactly when the last two bytes of some id
    read as a negative hexadecimal number (a minus sign and a digit other
    than 0).  Otherwise the set it returns has bit [i] set exactly when
    some id's last two bytes read as [i]: ids shorter than two bytes or
    not ending in a hexadecimal number add nothing, and neither the order
    of the ids nor their repetition matters. *)
Theorem CalculateIndexSet_bits (questionIDs : list string) :
  match CalculateIndexSet questionIDs with
  | IndexSet z =>
      (forall id i, In id questionIDs -> indexOf id = Some i -> 0 <= i)
      /\ 0 <= z
      /\ (forall i, Z.testbit z i = true
                    <-> exists id, In id questionIDs /\ indexOf id = Some i)
  | IndexSetPanic _ =>
      exists id i, In id questionIDs /\ indexOf id = Some i /\ i < 0
  end.
Proof.
  unfold CalculateIndexSet.
  pose proof (indexSetLoop_spec questionIDs ∅ 0) as H.
  destruct (indexSetLoop questionIDs ∅ 0) as [z|why].
  - destruct H as (Hp & Hz & Hb).
    + intros i Hi. apply elem_of_empty in Hi. contradiction.
    + lia.
    + intros i. rewrite Z.bits_0. split; [discriminate|].
      intros Hi. apply elem_of_empty in Hi. contradiction.
    + split; [exact Hp|]. split; [exact Hz|].
      intros i. rewrite Hb. split; [|auto].
      intros [Hi|H]; [apply elem_of_empty in Hi; contradiction | exact H].
  - apply H.
    + intros i Hi. apply elem_of_empty in Hi. contradiction.
    + lia.
    + intros i. rewrite Z.bits_0. split; [discriminate|].
      intros Hi. apply elem_of_empty in Hi. contradiction.
Qed.

(** *** The order of [float64] *)

Lemma SFcompare_antisym (x y : spec_float) (c : comparison) :
  SFcompare x y = Some c -> SFcompare y x = Some (CompOpp c).
Proof.
  destruct x as [sx|sx| |sx mx ex], y as [sy|sy| |sy my ey]; cbn [SFcompare];
    try discriminate; intros [= <-];
    try (destruct sx; reflexivity); try (destruct sy; reflexivity);
    try (destruct sx, sy; reflexivity).
  destruct sx, sy; try reflexivity;
    rewrite (Z.compare_antisym ex ey);
    destruct (ex ?= ey); cbn [CompOpp]; try reflexivity;
    change (PosDef.Pos.compare_cont Eq my mx) with (Pos.compare my mx);
    change (PosDef.Pos.compare_cont Eq mx my) with (Pos.compare mx my);
    rewrite (Pos.compare_antisym mx my); destruct (Pos.compare mx my);
    reflexivity.
Qed.

Lemma SFcompare_number (x y : spec_float) :
  x <> S754_nan -> y <> S754_nan -> exists c, SFcompare x y = Some c.
Proof.
  destruct x as [sx|sx| |sx mx ex], y as [sy|sy| |sy my ey]; cbn [SFcompare];
    intros Hx Hy; try congruence; eexists; reflexivity.
Qed.

Lemma SFcompare_refl (x : spec_float) :
  x <> S754_nan -> SFcompare x x = Some Eq.
Proof.
  destruct x as [sx|sx| |sx mx ex]; cbn [SFcompare]; intros H;
    [reflexivity | destruct sx; reflexivity | congruence |].
  rewrite Z.compare_refl.
  change (PosDef.Pos.compare_cont Eq mx mx) with (Pos.compare mx mx).
  rewrite Pos.compare_refl. destruct sx; reflexivity.
Qed.

Lemma SFcompare_some (x y : spec_float) (c : comparison) :
  SFcompare x y = Some c -> x <> S754_nan /\ y <> S754_nan.
Proof.
  destruct x as [sx|sx| |sx mx ex], y as [sy|sy| |sy my ey]; cbn [SFcompare];
    try discriminate; intros _; split; discriminate.
Qed.

Lemma is_number_spec (x : float) : is_number x = true -> Prim2SF x <> S754_nan.
Proof.
  unfold is_number. rewrite FloatAxioms.eqb_spec. intros H E. rewrite E in H.
  discriminate H.
Qed.

Lemma is_number_intro (x : float) : Prim2SF x <> S754_nan -> is_number x = true.
Proof.
  intros H. unfold is_number. rewrite FloatAxioms.eqb_spec. unfold SFeqb.
  rewrite (SFcompare_refl _ H). reflexivity.
Qed.

Lemma leb_number_l (x y : float) : (x <=? y)%float = true -> is_number x = true.
Proof.
  rewrite FloatAxioms.leb_spec. unfold SFleb. intros H.
  destruct (SFcompare (Prim2SF x) (Prim2SF y)) as [c|] eqn:E; [|discriminate].
  apply is_number_intro. exact (proj1 (SFcompare_some _ _ _ E)).
Qed.

Lemma leb_number_r (x y : float) : (x <=? y)%float = true -> is_number y = true.
Proof.
  rewrite FloatAxioms.leb_spec. unfold SFleb. intros H.
  destruct (SFcompare (Prim2SF x) (Prim2SF y)) as [c|] eqn:E; [|discriminate].
  apply is_number_intro. exact (proj2 (SFcompare_some _ _ _ E)).
Qed.

Lemma leb_refl_number (x : float) : is_number x = true -> (x <=? x)%float = true.
Proof.
  intros H. rewrite FloatAxioms.leb_spec. unfold SFleb.
  rewrite (SFcompare_refl _ (is_number_spec x H)). reflexivity.
Qed.

(** Among numbers, [x < y] failing means [y <= x]. *)
Lemma not_ltb_leb (x y : float) :
  is_number x = true -> is_number y = true ->
  (x <? y)%float = false -> (y <=? x)%float = true.
Proof.
  intros Hx Hy. rewrite FloatAxioms.ltb_spec, FloatAxioms.leb_spec.
  unfold SFltb, SFleb.
  destruct (SFcompare_number _ _ (is_number_spec x Hx) (is_number_spec y Hy))
    as [c Hc].
  rewrite Hc, (SFcompare_antisym _ _ _ Hc).
  destruct c; cbn [CompOpp]; try reflexivity. discriminate.
Qed.

(** For a price that is a number and a tick size no greater than one
    minus itself, the clamped price lies between the tick size and one
    minus the tick size; a price already there is returned as it is, and
    clamping a second time changes nothing.  A NaN price is returned as it
    is. *)
Theorem ClampPrice_is_within_bounds (price tickSize : float) :
  (tickSize <=? 1 - tickSize)%float = true ->
  (is_number price = true ->
   (tickSize <=? ClampPrice price tickSize)%float = true
   /\ (ClampPrice price tickSize <=? 1 - tickSize)%float = true
   /\ ClampPrice (ClampPrice price tickSize) tickSize = ClampPrice price tickSize)
  /\ ((tickSize <=? price)%float = true ->
      (price <=? 1 - tickSize)%float = true ->
      ClampPrice price tickSize = price)
  /\ (is_number price = false -> ClampPrice price tickSize = price).
Proof.
  intros Hb.
  pose proof (leb_number_l _ _ Hb) as Hmin.
  pose proof (leb_number_r _ _ Hb) as Hmax.
  assert (Hin : forall p, (tickSize <=? p)%float = true ->
                          (p <=? 1 - tickSize)%float = true ->
                          ClampPrice p tickSize = p).
  { intros p H1 H2. unfold ClampPrice.
    assert (E1 : (p <? tickSize)%float = false).
    { rewrite FloatAxioms.ltb_spec. rewrite FloatAxioms.leb_spec in H1.
      unfold SFltb. unfold SFleb in H1.
      destruct (SFcompare (Prim2SF tickSize) (Prim2SF p)) as [c|] eqn:Ec;
        [|discriminate].
      rewrite (SFcompare_antisym _ _ _ Ec).
      destruct c; try discriminate; reflexivity. }
    assert (E2 : (1 - tickSize <? p)%float = false).
    { rewrite FloatAxioms.ltb_spec. rewrite FloatAxioms.leb_spec in H2.
      unfold SFltb. unfold SFleb in H2.
      destruct (SFcompare (Prim2SF p) (Prim2SF (1 - tickSize))) as [c|] eqn:Ec;
        [|discriminate].
      rewrite (SFcompare_antisym _ _ _ Ec).
      destruct c; try discriminate; reflexivity. }
    change 1.0%float with 1%float. rewrite E1, E2. reflexivity. }
  split; [|split].
  - intros Hp.
    assert (Hr : (tickSize <=? ClampPrice price tickSize)%float = true
                 /\ (ClampPrice price tickSize <=? 1 - tickSize)%float = true).
    { unfold ClampPrice. change 1.0%float with 1%float.
      destruct (price <? tickSize)%float eqn:E1.
      { split; [apply leb_refl_number; exact Hmin | exact Hb]. }
      destruct (1 - tickSize <? price)%float eqn:E2.
      { split; [exact Hb | apply leb_refl_number; exact Hmax]. }
      split; apply not_ltb_leb; assumption. }
    destruct Hr as [H1 H2]. split; [exact H1|]. split; [exact H2|].
    apply Hin; assumption.
  - exact (Hin price).
  - intros Hp. unfold ClampPrice.
    assert (En : Prim2SF price = S754_nan).
    { destruct (Prim2SF price) eqn:E; try reflexivity;
        rewrite is_number_intro in Hp by (rewrite E; discriminate);
        discriminate Hp. }
    rewrite !FloatAxioms.ltb_spec. unfold SFltb. rewrite En.
    cbn [SFcompare].
    destruct (Prim2SF (1.0 - tickSize)); reflexivity.
Qed.

(** Tick 0.01: 0.005 is raised to 0.01, 0.995 lowered to 0.99, 0.5 kept. *)
Lemma ClampPrice_is_within_bounds_example :
  (0.01 <=? 1 - 0.01)%float = true
  /\ ClampPrice 0.005 0.01 = 0.01%float
  /\ ClampPrice 0.995 0.01 = (1 - 0.01)%float
  /\ ClampPrice 0.5 0.01 = 0.5%float.
Proof.
  split; [reflexivity|]. split; [vm_compute; reflexivity|].
  split; [vm_compute; reflexivity|].
  apply (proj1 (proj2 (ClampPrice_is_within_bounds 0.5 0.01 eq_refl)));
    reflexivity.
Defined.

End CommonFacts.
(** ** Reading token ids back from their JSON text *)

Module TokenFacts.
Import GoRuntime Switcher RuntimeFacts.

Lemma Split_no_sep (s : string) (sep : ascii) :
  has_byte sep s = false -> Split s sep = [s].
Proof.
  induction s as [|a s IH]; [reflexivity|].
  cbn [has_byte Split]. intros H. apply orb_false_elim in H as [Ha Hs].
  rewrite Ha, (IH Hs). reflexivity.
Qed.

Lemma has_byte_app (c : ascii) (a b : string) :
  has_byte c (a +:+ b) = has_byte c a || has_byte c b.
Proof.
  induction a as [|x a IH]; [reflexivity|].
  rewrite app_cons. cbn [has_byte]. rewrite IH, orb_assoc. reflexivity.
Qed.

Lemma TrimRightSet_snoc_in (s cutset : string) (c : ascii) :
  in_cutset c cutset = true ->
  TrimRightSet (s +:+ String c "") cutset = TrimRightSet s cutset.
Proof.
  intros Hc. induction s as [|a s IH].
  - rewrite app_nil. cbn [TrimRightSet]. rewrite Hc. reflexivity.
  - rewrite app_cons. cbn [TrimRightSet]. rewrite IH. reflexivity.
Qed.

Lemma TrimRightSet_snoc_out (s cutset : string) (c : ascii) :
  in_cutset c cutset = false ->
  TrimRightSet (s +:+ String c "") cutset = s +:+ String c "".
Proof.
  intros Hc. induction s as [|a s IH].
  - rewrite app_nil. cbn [TrimRightSet]. rewrite Hc. reflexivity.
  - rewrite app_cons. cbn [TrimRightSet]. rewrite IH.
    assert (E : String.eqb (s +:+ String c "") "" = false).
    { destruct s; reflexivity. }
    rewrite E, andb_false_r. reflexivity.
Qed.

(** A text is empty or has a last byte. *)
Lemma last_byte (s : string) : s = "" \/ exists t c, s = t +:+ String c "".
Proof.
  induction s as [|a s IH]; [left; reflexivity|]. right.
  destruct IH as [->|(t & c & ->)].
  - exists "", a. reflexivity.
  - exists (String a t), c. reflexivity.
Qed.

Lemma Trim_quoted (id : string) :
  id <> "" ->
  (forall t, id <> String quote t) ->
  (forall t, id <> t +:+ String quote "") ->
  Trim (String quote (id +:+ String quote "")) (String quote "") = id.
Proof.
  intros Hne Hfirst Hlast. unfold Trim.
  change (String quote (id +:+ String quote ""))
    with (String quote id +:+ String quote "").
  rewrite TrimRightSet_snoc_in by reflexivity.
  destruct (last_byte id) as [->|(t & c & ->)]; [congruence|].
  assert (Hc : in_cutset c (String quote "") = false).
  { cbn [in_cutset]. rewrite orb_false_r.
    destruct (Ascii.eqb_spec c quote) as [->|]; [|reflexivity].
    exfalso. exact (Hlast t eq_refl). }
  change (String quote (t +:+ String c ""))
    with (String quote t +:+ String c "").
  rewrite (TrimRightSet_snoc_out _ _ _ Hc).
  rewrite app_cons. cbn [TrimLeftSet in_cutset].
  rewrite Ascii.eqb_refl. cbn [orb].
  destruct (t +:+ String c "") as [|a r] eqn:E.
  { destruct t; discriminate E. }
  cbn [TrimLeftSet in_cutset]. rewrite orb_false_r.
  destruct (Ascii.eqb_spec a quote) as [->|]; [|reflexivity].
  exfalso. exact (Hfirst r eq_refl).
Qed.

Lemma list_ascii_app (a b : string) :
  list_ascii_of_string (a +:+ b)
  = list_ascii_of_string a ++ list_ascii_of_string b.
Proof.
  induction a as [|x a IH]; [reflexivity|].
  rewrite app_cons. cbn [list_ascii_of_string app]. rewrite IH. reflexivity.
Qed.

Lemma ends_with_quote (s t : string) :
  s = t +:+ String quote "" ->
  hd "a"%char (rev (list_ascii_of_string s)) = quote.
Proof.
  intros ->. rewrite list_ascii_app, rev_app_distr. reflexivity.
Qed.

Section Space.

Variable TrimFuncSpace : string -> string.
Variable TrimRightFuncSpace : string -> string.

Lemma quote_plain : (128 <=? nat_of_ascii quote)%nat = false
                    /\ asciiSpace quote = false.
Proof. split; reflexivity. Qed.

(** A text that ends with a double quote is not cut at its end. *)
Lemma trimSpaceEnd_quoted (s : string) :
  trimSpaceEnd TrimRightFuncSpace (s +:+ String quote "")
  = s +:+ String quote "".
Proof.
  unfold trimSpaceEnd. rewrite list_ascii_app, rev_app_distr.
  cbn [list_ascii_of_string rev app scanEnd].
  destruct quote_plain as [-> ->].
  cbn [rev]. rewrite rev_involutive.
  change (list_ascii_of_string s ++ [quote])
    with (list_ascii_of_string s ++ list_ascii_of_string (String quote "")).
  rewrite <- list_ascii_app. apply string_of_list_ascii_of_string.
Qed.

Lemma TrimSpace_item (item : string * string) :
  (forall c, has_byte c (fst item) = true ->
             asciiSpace c = true /\ (nat_of_ascii c < 128)%nat) ->
  TrimSpace TrimFuncSpace TrimRightFuncSpace (jsonItem item)
  = String quote (snd item +:+ String quote "").
Proof.
  unfold jsonItem. destruct item as [sp id]. cbn [fst snd].
  induction sp as [|c sp IH]; intros Hsp.
  - rewrite app_nil. cbn [TrimSpace]. destruct quote_plain as [-> ->].
    change (String quote (id +:+ String quote ""))
      with (String quote id +:+ String quote "").
    apply trimSpaceEnd_quoted.
  - rewrite app_cons. cbn [TrimSpace].
    destruct (Hsp c) as [Hs Hlt].
    { cbn [has_byte]. rewrite Ascii.eqb_refl. reflexivity. }
    assert (E : (128 <=? nat_of_ascii c)%nat = false)
      by (apply Nat.leb_gt; exact Hlt).
    rewrite E, Hs. apply IH. intros c' Hc'. apply Hsp.
    cbn [has_byte]. rewrite Hc', orb_true_r. reflexivity.
Qed.

Lemma item_no_comma (item : string * string) :
  plain_item item -> has_byte "," (jsonItem item) = false.
Proof.
  intros (_ & Hc & _ & _ & Hsp). unfold jsonItem.
  rewrite has_byte_app. cbn [has_byte]. rewrite has_byte_app, Hc.
  cbn [has_byte]. change (Ascii.eqb quote ",") with false. cbn [orb].
  rewrite orb_false_r.
  destruct (has_byte "," (fst item)) eqn:E; [|reflexivity].
  destruct (Hsp _ E) as [Hs _]. discriminate Hs.
Qed.

Lemma Split_jsonItems (items : list (string * string)) :
  Forall plain_item items ->
  Split (jsonItems items) ","
  = match items with
    | [] => [""]
    | _ => map jsonItem items
    end.
Proof.
  induction 1 as [|item items Hitem Hitems IH]; [reflexivity|].
  destruct items as [|item' items'].
  - cbn [jsonItems map]. apply Split_no_sep, item_no_comma, Hitem.
  - change (jsonItems (item :: item' :: items'))
      with (jsonItem item +:+ String "," (jsonItems (item' :: items'))).
    rewrite Split_app_single by (apply Split_no_sep, item_no_comma, Hitem).
    cbn [Split]. change (Ascii.eqb "," ",") with true. cbv iota.
    rewrite IH, app_empty_r. reflexivity.
Qed.

Lemma read_items (items : list (string * string)) :
  Forall plain_item items ->
  forall acc,
    foldl
      (fun ids p =>
         let id :=
           Trim (TrimSpace TrimFuncSpace TrimRightFuncSpace p)
             (String quote "") in
         if negb (String.eqb id "") then ids ++ [id] else ids)
      acc (map jsonItem items)
    = acc ++ map snd items.
Proof.
  induction 1 as [|item items Hitem Hitems IH]; intros acc.
  - cbn. rewrite app_nil_r. reflexivity.
  - cbn [map foldl]. cbv zeta.
    destruct Hitem as (Hne & Hc & Hf & Hl & Hsp).
    rewrite (TrimSpace_item item Hsp), (Trim_quoted _ Hne Hf Hl).
    apply String.eqb_neq in Hne. rewrite Hne. cbn [negb].
    rewrite IH, <- app_assoc. reflexivity.
Qed.

Lemma jsonItems_ends (items : list (string * string)) :
  items <> [] -> exists t, jsonItems items = t +:+ String quote "".
Proof.
  induction items as [|item items IH]; [congruence|]. intros _.
  destruct items as [|item' items'].
  - cbn [jsonItems]. unfold jsonItem.
    exists (fst item +:+ String quote (snd item)).
    rewrite app_assoc_s, app_cons. reflexivity.
  - destruct IH as [t Ht]; [discriminate|].
    change (jsonItems (item :: item' :: items'))
      with (jsonItem item +:+ String "," (jsonItems (item' :: items'))).
    rewrite Ht. exists (jsonItem item +:+ String "," t).
    rewrite app_assoc_s, app_cons. reflexivity.
Qed.

Lemma jsonItems_starts (items : list (string * string)) :
  Forall plain_item items -> items <> [] ->
  TrimLeftSet (jsonItems items) "[]" = jsonItems items.
Proof.
  intros H Hne. destruct items as [|item items]; [congruence|].
  assert (Hi : TrimLeftSet (jsonItem item) "[]" = jsonItem item
               /\ jsonItem item <> "").
  { unfold jsonItem. apply Forall_inv in H. destruct H as (_ & _ & _ & _ & Hsp).
    destruct (fst item) as [|c sp].
    - rewrite app_nil. split; [reflexivity | discriminate].
    - rewrite app_cons. split; [|discriminate]. cbn [TrimLeftSet].
      destruct (Hsp c) as [Hs _].
      { cbn [has_byte]. rewrite Ascii.eqb_refl. reflexivity. }
      assert (E : in_cutset c "[]" = false).
      { cbn [in_cutset]. rewrite orb_false_r.
        destruct (Ascii.eqb_spec c "[") as [->|]; [discriminate Hs|].
        destruct (Ascii.eqb_spec c "]") as [->|]; [discriminate Hs|].
        reflexivity. }
      rewrite E. reflexivity. }
  destruct Hi as [Hi Hn].
  destruct items as [|item' items']; [exact Hi|].
  change (jsonItems (item :: item' :: items'))
    with (jsonItem item +:+ String "," (jsonItems (item' :: items'))).
  destruct (jsonItem item) as [|a r]; [congruence|].
  rewrite app_cons. cbn [TrimLeftSet] in Hi |- *.
  destruct (in_cutset a "[]"); [|reflexivity].
  exfalso. apply (f_equal String.length) in Hi.
  assert (Hlen : forall s, (String.length (TrimLeftSet s "[]")
                            <= String.length s)%nat).
  { induction s as [|x s IHs]; [reflexivity|]. cbn [TrimLeftSet].
    destruct (in_cutset x "[]"); cbn [String.length]; lia. }
  specialize (Hlen r). cbn [String.length] in Hi. lia.
Qed.

(** [parseTokenIDs] reads back the ids of a JSON array of strings: for ids
    that are not empty, hold no comma and neither start nor end with a
    double quote, each written in double quotes after any ASCII white
    space and separated by commas, the result is the list of the ids in
    order; the empty array gives no id. *)
Theorem parseTokenIDs_reads_back (items : list (string * string)) :
  Forall plain_item items ->
  parseTokenIDs TrimFuncSpace TrimRightFuncSpace (jsonArray items)
  = map snd items.
Proof.
  intros H. unfold parseTokenIDs, jsonArray.
  assert (ET : Trim (String "[" (jsonItems items +:+ "]")) "[]"
               = jsonItems items).
  { unfold Trim.
    change (String "[" (jsonItems items +:+ "]"))
      with (String "[" (jsonItems items) +:+ String "]" "").
    rewrite TrimRightSet_snoc_in by reflexivity.
    destruct items as [|item items]; [reflexivity|].
    destruct (jsonItems_ends (item :: items)) as [t Ht]; [discriminate|].
    rewrite Ht.
    change (String "[" (t +:+ String quote ""))
      with (String "[" t +:+ String quote "").
    rewrite TrimRightSet_snoc_out by reflexivity.
    rewrite app_cons. cbn [TrimLeftSet in_cutset].
    rewrite Ascii.eqb_refl. cbn [orb].
    rewrite <- Ht. apply jsonItems_starts; [exact H | discriminate]. }
  rewrite ET, (Split_jsonItems items H).
  destruct items as [|item items]; [reflexivity|].
  exact (read_items _ H []).
Qed.

End Space.

(** The text of two ids, the second after a space. *)
Lemma parseTokenIDs_reads_back_example :
  Forall plain_item [("", "123"); (" ", "456")]
  /\ parseTokenIDs (fun s => s) (fun s => s)
       (jsonArray [("", "123"); (" ", "456")]) = ["123"; "456"].
Proof.
  assert (Hspace : forall c, has_byte c " " = true ->
                     asciiSpace c = true /\ (nat_of_ascii c < 128)%nat).
  { intros c E. cbn [has_byte] in E. rewrite orb_false_r in E.
    apply Ascii.eqb_eq in E. subst c. split; [reflexivity | apply Nat.ltb_lt; reflexivity]. }
  assert (H : Forall plain_item [("", "123"); (" ", "456")]).
  { constructor; [|constructor; [|constructor]].
    - split; [discriminate|]. split; [reflexivity|].
      split; [intros t E; discriminate E|].
      split; [intros t E; apply ends_with_quote in E; discriminate E|].
      intros c E. discriminate E.
    - split; [discriminate|]. split; [reflexivity|].
      split; [intros t E; discriminate E|].
      split; [intros t E; apply ends_with_quote in E; discriminate E|].
      exact Hspace. }
  split; [exact H|].
  exact (parseTokenIDs_reads_back (fun s => s) (fun s => s) _ H).
Defined.

End TokenFacts.
